(** * HIOMAP over IPMI: the protocol dispatcher of [hiomap.cpp]

    A shallow embedding of the host-side flash-mapping bridge
    ([openpower::flash] in [src/hiomap.cpp]) and the properties of its
    dispatcher, its errno translation, its acknowledge handler and its
    notification handlers.

    Conventions.
    - A [uint8_t] is a [Z]; every conversion to [uint8_t] the source
      performs is written [u8].  Bitwise operators are those of [Z], which
      agree with C's on the promoted [int] operands.
    - A byte buffer is a [list Z]; [buf[i]] is [byte_at buf i], a store to
      [buf[i]] is stdpp's [<[i:=v]> buf].
    - [std::map<std::string,int>] is [gmap string Z].
    - The D-Bus backend is an oracle answering one method call; every call a
      handler issues is recorded in the result, as is every command pushed
      to the host. *)

From Stdlib Require Import ZArith Lia Bool.
From stdpp Require Import base option list strings gmap.

Local Open Scope Z_scope.

(** ** Machine integers and buffers *)

(** Conversion of an [int] to [uint8_t]. *)
Definition u8 (x : Z) : Z := x mod 256.

(** Conversion of an [int] to [uint16_t]. *)
Definition u16 (x : Z) : Z := x mod 65536.

(** [buf[i]] for a [uint8_t*]; every read of the source is behind a length
    check, the value past the end is never used. *)
Definition byte_at (buf : list Z) (i : nat) : Z := default 0 (buf !! i).

(** [le16toh(get<uint16_t>(&buf[i]))]: [get] copies two bytes in host
    order, [le16toh] turns the little-endian reading of them into a host
    value, whatever the host order is. *)
Definition get_le16 (buf : list Z) (i : nat) : Z :=
  byte_at buf i + 256 * byte_at buf (S i).

(** [put(&buf[i], v)] for a [uint8_t] value.  The list is the buffer the
    caller provides: the model agrees with the source when the store
    falls inside it, [i < length buf]; a store past its end, which the
    source would perform outside the buffer, is not recorded.  Properties
    that speak of written bytes assume a buffer with room for them. *)
Definition put_u8 (i : nat) (v : Z) (buf : list Z) : list Z :=
  <[i := u8 v]> buf.

(** [put(&buf[i], htole16(v))] for a [uint16_t] value; as for [put_u8],
    the model agrees with the source when both bytes fall inside the
    buffer, [S i < length buf]. *)
Definition put_le16 (i : nat) (v : Z) (buf : list Z) : list Z :=
  <[S i := u16 v / 256]> (<[i := u16 v mod 256]> buf).

(** ** Constants of the environment *)

(** Completion codes of [host-ipmid/ipmid-api.h] (phosphor-host-ipmid, an
    external header): the values the IPMI specification assigns. *)
Definition IPMI_CC_OK : Z := 0x00.
Definition IPMI_CC_BUSY : Z := 0xC0.
Definition IPMI_CC_INVALID : Z := 0xC1.
Definition IPMI_CC_REQ_DATA_LEN_INVALID : Z := 0xC7.
Definition IPMI_CC_PARM_OUT_OF_RANGE : Z := 0xC9.
Definition IPMI_CC_SENSOR_INVALID : Z := 0xCB.
Definition IPMI_CC_INVALID_FIELD_REQUEST : Z := 0xCC.
Definition IPMI_CC_INSUFFICIENT_PRIVILEGE : Z := 0xD4.
Definition IPMI_CC_UNSPECIFIED_ERROR : Z := 0xFF.

(** Error numbers of [<errno.h>] on Linux, the platform of the daemon. *)
Definition EPERM : Z := 1.
Definition EACCES : Z := 13.
Definition EBUSY : Z := 16.
Definition ENODEV : Z := 19.
Definition EINVAL : Z := 22.
Definition ENOSPC : Z := 28.
Definition ENOTSUP : Z := 95.
Definition ETIMEDOUT : Z := 110.

(** ** Constants of [hiomap.cpp] *)

Definition BMC_EVENT_DAEMON_READY : Z := Z.shiftl 1 7.
Definition BMC_EVENT_FLASH_CTRL_LOST : Z := Z.shiftl 1 6.
Definition BMC_EVENT_WINDOW_RESET : Z := Z.shiftl 1 1.
Definition BMC_EVENT_PROTOCOL_RESET : Z := Z.shiftl 1 0.

Definition IPMI_CMD_HIOMAP_EVENT : Z := 0x0f.

Definition HIOMAPD_SERVICE : string := "xyz.openbmc_project.Hiomapd".
Definition HIOMAPD_OBJECT : string := "/xyz/openbmc_project/Hiomapd".
Definition HIOMAPD_IFACE : string := "xyz.openbmc_project.Hiomapd.Protocol".
Definition HIOMAPD_IFACE_V2 : string :=
  "xyz.openbmc_project.Hiomapd.Protocol.V2".

(** ** The session: [struct hiomap]

    The bus handle and the three match objects are resources of the
    environment; the protocol state is the lookup table, the event
    bitmask and the last sequence number. *)
Record hiomap := mk_hiomap {
  event_lookup : gmap string Z;
  bmc_events : Z;
  seq : Z
}.

Definition set_event_lookup (m : gmap string Z) (ctx : hiomap) : hiomap :=
  mk_hiomap m (bmc_events ctx) (seq ctx).

Definition set_bmc_events (v : Z) (ctx : hiomap) : hiomap :=
  mk_hiomap (event_lookup ctx) v (seq ctx).

Definition set_seq (v : Z) (ctx : hiomap) : hiomap :=
  mk_hiomap (event_lookup ctx) (bmc_events ctx) v.

(** ** The errno table and its translator *)

Record errno_cc_entry := mk_entry { err : Z; cc : Z }.

Definition errno_cc_map : list errno_cc_entry :=
  [ mk_entry 0 IPMI_CC_OK;
    mk_entry EBUSY IPMI_CC_BUSY;
    mk_entry ENOTSUP IPMI_CC_INVALID;
    mk_entry ETIMEDOUT 0xc3;
    mk_entry ENOSPC 0xc4;
    mk_entry EINVAL IPMI_CC_PARM_OUT_OF_RANGE;
    mk_entry ENODEV IPMI_CC_SENSOR_INVALID;
    mk_entry EPERM IPMI_CC_INSUFFICIENT_PRIVILEGE;
    mk_entry EACCES IPMI_CC_INSUFFICIENT_PRIVILEGE;
    mk_entry (-1) IPMI_CC_UNSPECIFIED_ERROR ].

(** The [while] loop of [hiomap_xlate_errno], started with [entry] at the
    head of [entries]: it advances while the entry neither equals [e] nor
    is the [-1] sentinel.  Stepping past the last entry of the array is
    [None]. *)
Fixpoint errno_walk (entries : list errno_cc_entry) (e : Z) : option Z :=
  match entries with
  | [] => None
  | entry :: rest =>
      if negb ((err entry =? e) || (err entry =? -1))
      then errno_walk rest e
      else Some (cc entry)
  end.

(** [hiomap_xlate_errno]; the walk never leaves the table
    ([errno_walk_total] below), so the alternative is never taken. *)
Definition hiomap_xlate_errno (e : Z) : Z :=
  default 0 (errno_walk errno_cc_map e).

(** ** The backend bus *)

(** A D-Bus method call: [new_method_call] fixes the four names, [append]
    adds one argument at the end. *)
Record method_call := mk_call {
  mc_service : string;
  mc_object : string;
  mc_iface : string;
  mc_member : string;
  mc_args : list Z
}.

Definition new_method_call (service object iface member : string)
  : method_call := mk_call service object iface member [].

Definition append (v : Z) (m : method_call) : method_call :=
  mk_call (mc_service m) (mc_object m) (mc_iface m) (mc_member m)
          (mc_args m ++ [v]).

(** What [ctx->bus->call(m)] does: it returns a reply carrying the body
    values, or throws [exception::SdBusError] carrying an errno. *)
Inductive bus_reply :=
  | Reply (body : list Z)
  | SdBusError (get_errno : Z).

(** The backend at the time of one dispatch: its answer to the call. *)
Definition bus := method_call -> bus_reply.

(** [reply.read(...)] fills its arguments with the body values in order;
    [read_at body i] is the [i]-th of them.  The Hiomapd interface fixes
    the number of values of each reply. *)
Definition read_at (body : list Z) (i : nat) : Z := nth i body 0.

(** ** Command handlers

    A handler has the source's parameters (the bus stands for [ctx->bus])
    and returns what it leaves behind: its return code, the response
    buffer, [*data_len], the session and the method calls it issued. *)
Record cmd_result := mk_result {
  res_cc : Z;
  res_response : list Z;
  res_data_len : Z;
  res_ctx : hiomap;
  res_calls : list method_call
}.

Definition hiomap_command :=
  bus -> list Z -> list Z -> Z -> hiomap -> cmd_result.

Definition hiomap_reset : hiomap_command :=
  fun b request response data_len ctx =>
  let m := new_method_call HIOMAPD_SERVICE HIOMAPD_OBJECT HIOMAPD_IFACE
                           "Reset" in
  match b m with
  | Reply _ => mk_result IPMI_CC_OK response 0 ctx [m]
  | SdBusError e =>
      mk_result (u8 (hiomap_xlate_errno e)) response data_len ctx [m]
  end.

Definition hiomap_get_info : hiomap_command :=
  fun b request response data_len ctx =>
  if data_len <? 1
  then mk_result IPMI_CC_REQ_DATA_LEN_INVALID response data_len ctx []
  else
    let m := append (byte_at request 0)
               (new_method_call HIOMAPD_SERVICE HIOMAPD_OBJECT HIOMAPD_IFACE
                                "GetInfo") in
    match b m with
    | Reply body =>
        let version := read_at body 0 in
        let blockSizeShift := read_at body 1 in
        let timeout := read_at body 2 in
        let respdata :=
          put_le16 2 timeout
            (put_u8 1 blockSizeShift (put_u8 0 version response)) in
        mk_result IPMI_CC_OK respdata 4 ctx [m]
    | SdBusError e =>
        mk_result (u8 (hiomap_xlate_errno e)) response data_len ctx [m]
    end.

Definition hiomap_get_flash_info : hiomap_command :=
  fun b request response data_len ctx =>
  let m := new_method_call HIOMAPD_SERVICE HIOMAPD_OBJECT HIOMAPD_IFACE_V2
                           "GetFlashInfo" in
  match b m with
  | Reply body =>
      let flashSize := read_at body 0 in
      let eraseSize := read_at body 1 in
      let respdata := put_le16 2 eraseSize (put_le16 0 flashSize response) in
      mk_result IPMI_CC_OK respdata 4 ctx [m]
  | SdBusError e =>
      mk_result (u8 (hiomap_xlate_errno e)) response data_len ctx [m]
  end.

Definition hiomap_create_window (ro : bool) : hiomap_command :=
  fun b request response data_len ctx =>
  if data_len <? 4
  then mk_result IPMI_CC_REQ_DATA_LEN_INVALID response data_len ctx []
  else
    let windowType : string :=
      if ro then "CreateReadWindow" else "CreateWriteWindow" in
    let m := append (get_le16 request 2)
               (append (get_le16 request 0)
                  (new_method_call HIOMAPD_SERVICE HIOMAPD_OBJECT
                                   HIOMAPD_IFACE_V2 windowType)) in
    match b m with
    | Reply body =>
        let lpcAddress := read_at body 0 in
        let size := read_at body 1 in
        let offset := read_at body 2 in
        let respdata :=
          put_le16 4 offset
            (put_le16 2 size (put_le16 0 lpcAddress response)) in
        mk_result IPMI_CC_OK respdata 6 ctx [m]
    | SdBusError e =>
        mk_result (u8 (hiomap_xlate_errno e)) response data_len ctx [m]
    end.

Definition hiomap_create_read_window : hiomap_command :=
  hiomap_create_window true.

Definition hiomap_create_write_window : hiomap_command :=
  hiomap_create_window false.

Definition hiomap_close_window : hiomap_command :=
  fun b request response data_len ctx =>
  if data_len <? 1
  then mk_result IPMI_CC_REQ_DATA_LEN_INVALID response data_len ctx []
  else
    let m := append (byte_at request 0)
               (new_method_call HIOMAPD_SERVICE HIOMAPD_OBJECT
                                HIOMAPD_IFACE_V2 "CloseWindow") in
    match b m with
    | Reply _ => mk_result IPMI_CC_OK response 0 ctx [m]
    | SdBusError e =>
        mk_result (u8 (hiomap_xlate_errno e)) response data_len ctx [m]
    end.

Definition hiomap_mark_dirty : hiomap_command :=
  fun b request response data_len ctx =>
  if data_len <? 4
  then mk_result IPMI_CC_REQ_DATA_LEN_INVALID response data_len ctx []
  else
    let m := append (get_le16 request 2)
               (append (get_le16 request 0)
                  (new_method_call HIOMAPD_SERVICE HIOMAPD_OBJECT
                                   HIOMAPD_IFACE_V2 "MarkDirty")) in
    match b m with
    | Reply _ => mk_result IPMI_CC_OK response 0 ctx [m]
    | SdBusError e =>
        mk_result (u8 (hiomap_xlate_errno e)) response data_len ctx [m]
    end.

Definition hiomap_flush : hiomap_command :=
  fun b request response data_len ctx =>
  let m := new_method_call HIOMAPD_SERVICE HIOMAPD_OBJECT HIOMAPD_IFACE_V2
                           "Flush" in
  match b m with
  | Reply _ => mk_result IPMI_CC_OK response 0 ctx [m]
  | SdBusError e =>
      mk_result (u8 (hiomap_xlate_errno e)) response data_len ctx [m]
  end.

(** [ctx->bmc_events &= ~acked]: both operands are promoted to [int], the
    result is stored back into the [uint8_t] field. *)
Definition hiomap_ack : hiomap_command :=
  fun b request response data_len ctx =>
  if data_len <? 1
  then mk_result IPMI_CC_REQ_DATA_LEN_INVALID response data_len ctx []
  else
    let acked := byte_at request 0 in
    let m := append acked
               (new_method_call HIOMAPD_SERVICE HIOMAPD_OBJECT
                                HIOMAPD_IFACE_V2 "Ack") in
    match b m with
    | Reply _ =>
        let ctx' :=
          set_bmc_events (u8 (Z.land (bmc_events ctx) (Z.lnot acked))) ctx in
        mk_result IPMI_CC_OK response 0 ctx' [m]
    | SdBusError e =>
        mk_result (u8 (hiomap_xlate_errno e)) response data_len ctx [m]
    end.

Definition hiomap_erase : hiomap_command :=
  fun b request response data_len ctx =>
  if data_len <? 4
  then mk_result IPMI_CC_REQ_DATA_LEN_INVALID response data_len ctx []
  else
    let m := append (get_le16 request 2)
               (append (get_le16 request 0)
                  (new_method_call HIOMAPD_SERVICE HIOMAPD_OBJECT
                                   HIOMAPD_IFACE_V2 "Erase")) in
    match b m with
    | Reply _ => mk_result IPMI_CC_OK response 0 ctx [m]
    | SdBusError e =>
        mk_result (u8 (hiomap_xlate_errno e)) response data_len ctx [m]
    end.

(** ** The command table and the dispatcher *)

Definition HIOMAP_C_RESET : Z := 1.
Definition HIOMAP_C_GET_INFO : Z := 2.
Definition HIOMAP_C_GET_FLASH_INFO : Z := 3.
Definition HIOMAP_C_CREATE_READ_WINDOW : Z := 4.
Definition HIOMAP_C_CLOSE_WINDOW : Z := 5.
Definition HIOMAP_C_CREATE_WRITE_WINDOW : Z := 6.
Definition HIOMAP_C_MARK_DIRTY : Z := 7.
Definition HIOMAP_C_FLUSH : Z := 8.
Definition HIOMAP_C_ACK : Z := 9.
Definition HIOMAP_C_ERASE : Z := 10.

(** [hiomap_commands]: slot 0 holds [NULL]. *)
Definition hiomap_commands : list (option hiomap_command) :=
  [ None;
    Some hiomap_reset;
    Some hiomap_get_info;
    Some hiomap_get_flash_info;
    Some hiomap_create_read_window;
    Some hiomap_close_window;
    Some hiomap_create_write_window;
    Some hiomap_mark_dirty;
    Some hiomap_flush;
    Some hiomap_ack;
    Some hiomap_erase ].

(** [ARRAY_SIZE(x)]. *)
Definition ARRAY_SIZE {A} (x : list A) : Z := Z.of_nat (length x).

(** The local [is_unversioned] of [hiomap_dispatch]. *)
Definition is_unversioned (hiomap_cmd : Z) : bool :=
  (hiomap_cmd =? HIOMAP_C_RESET) || (hiomap_cmd =? HIOMAP_C_GET_INFO)
  || (hiomap_cmd =? HIOMAP_C_ACK).

(** [hiomap_dispatch].  [*data_len] on entry is the number of request
    bytes.  [flash_resp] aliases the response buffer from its third byte
    on, so what the handler leaves there is put back behind the first two
    bytes.  The result is [None] where the source would call through a
    null or out-of-table slot. *)
Definition hiomap_dispatch (b : bus) (request response : list Z)
    (ctx : hiomap) : option cmd_result :=
  let data_len := Z.of_nat (length request) in
  if data_len <? 2
  then Some (mk_result IPMI_CC_REQ_DATA_LEN_INVALID response 0 ctx [])
  else
    let hiomap_cmd := byte_at request 0 in
    if (hiomap_cmd =? 0) || (hiomap_cmd >? ARRAY_SIZE hiomap_commands - 1)
    then Some (mk_result IPMI_CC_PARM_OUT_OF_RANGE response 0 ctx [])
    else
      if negb (is_unversioned hiomap_cmd) && (seq ctx =? byte_at request 1)
      then Some (mk_result IPMI_CC_INVALID_FIELD_REQUEST response 0 ctx [])
      else
        let ctx := set_seq (byte_at request 1) ctx in
        let flash_req := drop 2 request in
        let flash_len := data_len - 2 in
        let flash_resp := drop 2 response in
        match hiomap_commands !! Z.to_nat hiomap_cmd with
        | Some (Some handler) =>
            let r := handler b flash_req flash_resp flash_len ctx in
            let ipmi_resp := take 2 response ++ res_response r in
            if negb (res_cc r =? IPMI_CC_OK)
            then Some (mk_result (res_cc r) ipmi_resp 0 (res_ctx r)
                                 (res_calls r))
            else
              let ipmi_resp :=
                <[1%nat := seq (res_ctx r)]>
                  (<[0%nat := hiomap_cmd]> ipmi_resp) in
              Some (mk_result (res_cc r) ipmi_resp (res_data_len r + 2)
                              (res_ctx r) (res_calls r))
        | _ => None
        end.

(** ** Notifications *)

(** What a notification handler leaves behind: its return value, the
    session, and the commands handed to [ipmid_send_cmd_to_host], each the
    pair made by [std::make_pair]. *)
Record notify_result := mk_notify {
  nres_ret : Z;
  nres_ctx : hiomap;
  nres_sent : list (Z * Z)
}.

(** One turn of the loop of [hiomap_handle_property_update], for the map
    element [x]: a name the table does not count is skipped; otherwise
    [mask] is the table's value converted to [uint8_t], and the bitmask is
    or-ed with it or and-ed with its complement. *)
Definition property_update_step (ctx : hiomap) (x : string * bool)
  : hiomap :=
  match event_lookup ctx !! x.1 with
  | None => ctx
  | Some v =>
      let mask := u8 v in
      if x.2
      then set_bmc_events (u8 (Z.lor (bmc_events ctx) mask)) ctx
      else set_bmc_events (u8 (Z.land (bmc_events ctx) (Z.lnot mask))) ctx
  end.

(** [hiomap_handle_property_update].  The message carries the interface
    name and the changed properties; [msgData] lists the elements of the
    [std::map] read from it in iteration order, each key once. *)
Definition hiomap_handle_property_update (ctx : hiomap)
    (msg : string * list (string * bool)) : notify_result :=
  let '(iface, msgData) := msg in
  let ctx := foldl property_update_step ctx msgData in
  let cmd := (IPMI_CMD_HIOMAP_EVENT, bmc_events ctx) in
  mk_notify 0 ctx [cmd].

(** [m[key]] of [std::map]: the value of the key, after inserting a
    value-initialised one when the key is absent. *)
Definition map_index (m : gmap string Z) (key : string)
  : Z * gmap string Z :=
  match m !! key with
  | Some v => (v, m)
  | None => (0, <[key := 0]> m)
  end.

(** [hiomap_handle_signal_v2]. *)
Definition hiomap_handle_signal_v2 (ctx : hiomap) (name : string)
  : notify_result :=
  let '(v, lookup) := map_index (event_lookup ctx) name in
  let ctx := set_event_lookup lookup ctx in
  let ctx := set_bmc_events (u8 (Z.lor (bmc_events ctx) v)) ctx in
  let cmd := (IPMI_CMD_HIOMAP_EVENT, bmc_events ctx) in
  mk_notify 0 ctx [cmd].

(** ** Start-up: [register_openpower_hiomap_commands] *)

(** The four assignments through [event_lookup[...]], in source order, on
    the empty map of [new hiomap()]. *)
Definition initial_event_lookup : gmap string Z :=
  <["ProtocolReset" := BMC_EVENT_PROTOCOL_RESET]>
    (<["WindowReset" := BMC_EVENT_WINDOW_RESET]>
       (<["FlashControlLost" := BMC_EVENT_FLASH_CTRL_LOST]>
          (<["DaemonReady" := BMC_EVENT_DAEMON_READY]> ∅))).

(** The session as [new hiomap()] value-initialises it and the
    registration fills it. *)
Definition initial_hiomap : hiomap := mk_hiomap initial_event_lookup 0 0.

(** The names for which the registration installs a signal match. *)
Definition signal_names : list string := ["ProtocolReset"; "WindowReset"].

(** ** The translator as the specification words it

    "Lookup is linear, first-match; the table's final entry matches
    anything not previously matched and maps to a generic unspecified
    error status": the status of the first entry before the final one
    whose cause is the input, and the final entry's status when there is
    none. *)
Definition translate (table : list errno_cc_entry) (cause : Z) : option Z :=
  match last table with
  | None => None
  | Some wildcard =>
      match find (fun x => err x =? cause) (removelast table) with
      | Some x => Some (cc x)
      | None => Some (cc wildcard)
      end
  end.

(** ** Payload lengths and sample environments *)

(** The least [*data_len] each handler's own length check lets through;
    [hiomap_reset], [hiomap_get_flash_info] and [hiomap_flush] have no
    check. *)
Definition payload_min (hiomap_cmd : Z) : Z :=
  if hiomap_cmd =? HIOMAP_C_GET_INFO then 1
  else if hiomap_cmd =? HIOMAP_C_CREATE_READ_WINDOW then 4
  else if hiomap_cmd =? HIOMAP_C_CLOSE_WINDOW then 1
  else if hiomap_cmd =? HIOMAP_C_CREATE_WRITE_WINDOW then 4
  else if hiomap_cmd =? HIOMAP_C_MARK_DIRTY then 4
  else if hiomap_cmd =? HIOMAP_C_ACK then 1
  else if hiomap_cmd =? HIOMAP_C_ERASE then 4
  else 0.

(** The envelope passes the sequence check of the dispatcher. *)
Definition sequence_accepted (ctx : hiomap) (hiomap_cmd s : Z) : Prop :=
  is_unversioned hiomap_cmd = true \/ seq ctx <> s.

(** A backend that answers every call with the same reply body, and one
    that fails every call with the same errno. *)
Definition backend_replies (body : list Z) : bus := fun _ => Reply body.
Definition backend_fails (e : Z) : bus := fun _ => SdBusError e.

(** A zeroed response buffer of eight bytes. *)
Definition response_buffer : list Z := replicate 8 0.

(** The method call [hiomap_ack] builds for the mask [acked]. *)
Definition ack_call (acked : Z) : method_call :=
  append acked
    (new_method_call HIOMAPD_SERVICE HIOMAPD_OBJECT HIOMAPD_IFACE_V2 "Ack").

(** The masks of a lookup table share no bit of a [uint8_t]: the
    invariant "bits are disjoint" of the event table. *)
Definition masks_disjoint (table : gmap string Z) : Prop :=
  forall n1 n2 v1 v2 i,
    n1 <> n2 -> table !! n1 = Some v1 -> table !! n2 = Some v2 ->
    0 <= i < 8 -> Z.testbit v1 i = true -> Z.testbit v2 i = false.

(** ** The session over time

    What reaches the session after start-up: a command from the host
    answered by the backend of the moment, a property notification, or
    one of the signals a match is installed for. *)
Inductive event :=
  | Command (b : bus) (request response : list Z)
  | PropertiesChanged (msg : string * list (string * bool))
  | Signal (name : string).

Definition session_step (ctx : hiomap) (ev : event) : option hiomap :=
  match ev with
  | Command b request response =>
      res_ctx <$> hiomap_dispatch b request response ctx
  | PropertiesChanged msg =>
      Some (nres_ctx (hiomap_handle_property_update ctx msg))
  | Signal name =>
      if decide (name ∈ signal_names)
      then Some (nres_ctx (hiomap_handle_signal_v2 ctx name))
      else None
  end.

Inductive reachable : hiomap -> Prop :=
  | reachable_initial : reachable initial_hiomap
  | reachable_step ctx ev ctx' :
      reachable ctx -> session_step ctx ev = Some ctx' -> reachable ctx'.

(** ** Well-formed buffers and backends *)

(** A buffer of [uint8_t]: every element is a byte. *)
Definition bytes (buf : list Z) : Prop := Forall (fun x => 0 <= x < 256) buf.

(** A command outside the unversioned set. *)
Definition versioned (hiomap_cmd : Z) : Prop :=
  1 <= hiomap_cmd <= 10 /\ is_unversioned hiomap_cmd = false.

(** Events that are not commands from the host. *)
Definition is_notification (ev : event) : bool :=
  match ev with
  | Command _ _ _ => false
  | _ => true
  end.

(** The session after a list of events, in order. *)
Fixpoint session_run (ctx : hiomap) (evs : list event) : option hiomap :=
  match evs with
  | [] => Some ctx
  | ev :: evs =>
      match session_step ctx ev with
      | Some ctx' => session_run ctx' evs
      | None => None
      end
  end.

(** The number of payload bytes each handler reports after a reply of the
    backend: the value it stores in [*data_len]. *)
Definition reply_size (hiomap_cmd : Z) : Z :=
  if hiomap_cmd =? HIOMAP_C_GET_INFO then 4
  else if hiomap_cmd =? HIOMAP_C_GET_FLASH_INFO then 4
  else if hiomap_cmd =? HIOMAP_C_CREATE_READ_WINDOW then 6
  else if hiomap_cmd =? HIOMAP_C_CREATE_WRITE_WINDOW then 6
  else 0.

(** * Properties *)

(** ** Bits of a [uint8_t] *)

Lemma u8_range x : 0 <= u8 x < 256.
Proof. unfold u8. apply Z.mod_pos_bound. lia. Qed.

Lemma u8_id x : 0 <= x < 256 -> u8 x = x.
Proof. intros H. unfold u8. by apply Z.mod_small. Qed.

Lemma u8_testbit x i : 0 <= i < 8 -> Z.testbit (u8 x) i = Z.testbit x i.
Proof.
  intros H. unfold u8. change 256 with (2 ^ 8).
  apply Z.mod_pow2_bits_low. lia.
Qed.

Lemma u8_testbit_high x i : 8 <= i -> Z.testbit (u8 x) i = false.
Proof.
  intros H. unfold u8. change 256 with (2 ^ 8).
  apply Z.mod_pow2_bits_high. lia.
Qed.

Lemma u8_land_lnot x m :
  0 <= x < 256 -> u8 (Z.land x (Z.lnot m)) = Z.land x (Z.lnot m).
Proof.
  intros H. apply Z.bits_inj'. intros i Hi.
  destruct (Z_lt_ge_dec i 8) as [Hlt | Hge].
  - apply u8_testbit. lia.
  - rewrite u8_testbit_high by lia.
    rewrite Z.land_spec.
    assert (Z.testbit x i = false) as ->; [| done].
    apply (Z.bits_above_log2 x i); [lia |].
    destruct (Z.eq_dec x 0) as [-> | Hx]; [simpl; lia |].
    apply Z.log2_lt_pow2; [lia |].
    apply Z.lt_le_trans with (2 ^ 8); [simpl; lia |].
    apply Z.pow_le_mono_r; lia.
Qed.

(** ** The errno walk *)

Lemma errno_walk_sentinel pre wildcard e :
  Forall (fun x => err x <> -1) pre ->
  err wildcard = -1 ->
  errno_walk (pre ++ [wildcard]) e =
    Some (match find (fun x => err x =? e) pre with
          | Some x => cc x
          | None => cc wildcard
          end).
Proof.
  intros Hpre Hw. induction Hpre as [| x pre Hx _ IH]; simpl.
  - rewrite Hw. by rewrite orb_true_r.
  - destruct (Z.eqb_spec (err x) e) as [_ | _]; simpl; [done |].
    destruct (Z.eqb_spec (err x) (-1)) as [? | _]; [done |].
    simpl. apply IH.
Qed.

Lemma errno_walk_first entries e c :
  errno_walk entries e = Some c ->
  exists pre entry post,
    entries = pre ++ entry :: post
    /\ Forall (fun x => err x <> e /\ err x <> -1) pre
    /\ (err entry = e \/ err entry = -1)
    /\ c = cc entry.
Proof.
  induction entries as [| x rest IH]; simpl; [done |].
  destruct (Z.eqb_spec (err x) e) as [He | He]; simpl.
  - intros [= <-]. exists [], x, rest. auto.
  - destruct (Z.eqb_spec (err x) (-1)) as [Hw | Hw]; simpl.
    + intros [= <-]. exists [], x, rest. auto.
    + intros H. destruct (IH H) as (pre & entry & post & -> & Hpre & Hm & ->).
      exists (x :: pre), entry, post. split; [done |].
      split; [| done]. by constructor.
Qed.

Lemma errno_cc_map_split :
  errno_cc_map =
    removelast errno_cc_map ++ [mk_entry (-1) IPMI_CC_UNSPECIFIED_ERROR].
Proof. reflexivity. Qed.

Lemma errno_cc_map_no_early_sentinel :
  Forall (fun x => err x <> -1) (removelast errno_cc_map).
Proof. repeat constructor; simpl; unfold EBUSY, ENOTSUP, ETIMEDOUT, ENOSPC,
  EINVAL, ENODEV, EPERM, EACCES; lia. Qed.

Lemma errno_walk_find e :
  errno_walk errno_cc_map e =
    Some (match find (fun x => err x =? e) (removelast errno_cc_map) with
          | Some x => cc x
          | None => IPMI_CC_UNSPECIFIED_ERROR
          end).
Proof.
  rewrite errno_cc_map_split at 1.
  rewrite errno_walk_sentinel;
    [done | apply errno_cc_map_no_early_sentinel | done].
Qed.

Lemma hiomap_xlate_errno_find e :
  hiomap_xlate_errno e =
    match find (fun x => err x =? e) (removelast errno_cc_map) with
    | Some x => cc x
    | None => IPMI_CC_UNSPECIFIED_ERROR
    end.
Proof. unfold hiomap_xlate_errno. by rewrite errno_walk_find. Qed.

Lemma errno_walk_total e :
  errno_walk errno_cc_map e = Some (hiomap_xlate_errno e).
Proof. by rewrite hiomap_xlate_errno_find, errno_walk_find. Qed.

(** Every status the table can give is a [uint8_t]. *)
Lemma hiomap_xlate_errno_u8 e :
  u8 (hiomap_xlate_errno e) = hiomap_xlate_errno e.
Proof.
  apply u8_id. pose proof (errno_walk_total e) as H.
  apply errno_walk_first in H as (pre & entry & post & Hsplit & _ & _ & ->).
  assert (Forall (fun x => 0 <= cc x < 256) errno_cc_map) as Hall.
  { repeat constructor; simpl; unfold IPMI_CC_OK, IPMI_CC_BUSY,
      IPMI_CC_INVALID, IPMI_CC_PARM_OUT_OF_RANGE, IPMI_CC_SENSOR_INVALID,
      IPMI_CC_INSUFFICIENT_PRIVILEGE, IPMI_CC_UNSPECIFIED_ERROR; lia. }
  rewrite Hsplit in Hall. apply Forall_app in Hall as [_ Hall].
  by inversion Hall.
Qed.

(** C7. The error translator is total and is a linear first-match lookup
    over the ordered table: for every failure code the walk stops inside
    the table, at the first entry whose cause is the code or, when no
    entry before it has that cause, at the final wildcard entry, whose
    status is the unspecified error; the result is the one the
    specification's lookup gives, and a code absent from the table is
    translated to the unspecified error. *)
Theorem hiomap_xlate_errno_first_match (e : Z) :
  errno_walk errno_cc_map e = Some (hiomap_xlate_errno e)
  /\ translate errno_cc_map e = Some (hiomap_xlate_errno e)
  /\ (exists pre entry post,
        errno_cc_map = pre ++ entry :: post
        /\ Forall (fun x => err x <> e) pre
        /\ (err entry = e
            \/ (post = [] /\ err entry = -1
                /\ cc entry = IPMI_CC_UNSPECIFIED_ERROR))
        /\ hiomap_xlate_errno e = cc entry)
  /\ ((e ∉ map err (removelast errno_cc_map)) ->
      hiomap_xlate_errno e = IPMI_CC_UNSPECIFIED_ERROR).
Proof.
  pose proof (errno_walk_total e) as Htotal.
  pose proof (hiomap_xlate_errno_find e) as Hfind.
  split; [done |]. split; [| split].
  - unfold translate.
    change (last errno_cc_map)
      with (Some (mk_entry (-1) IPMI_CC_UNSPECIFIED_ERROR)).
    rewrite Hfind. by destruct (find _ _).
  - destruct (errno_walk_first _ _ _ Htotal)
      as (pre & entry & post & Hsplit & Hpre & Hm & Hcc).
    exists pre, entry, post. split; [done |]. split.
    { eapply Forall_impl; [exact Hpre |]. by intros x [? _]. }
    split; [| done].
    destruct (Z.eq_dec (err entry) e) as [? | Hne]; [by left | right].
    destruct Hm as [? | Hw]; [done |].
    pose proof errno_cc_map_no_early_sentinel as Hearly.
    pose proof errno_cc_map_split as Hlast. rewrite Hsplit in Hlast.
    destruct post as [| y post].
    + apply app_inj_tail in Hlast as [_ ->]. done.
    + exfalso. rewrite Hsplit in Hearly.
      assert (entry ∈ removelast (pre ++ entry :: y :: post)) as Hin.
      { rewrite removelast_app by done. simpl.
        apply elem_of_app. right. apply list_elem_of_here. }
      rewrite Forall_forall in Hearly. by apply (Hearly entry).
  - intros Habsent. rewrite Hfind.
    destruct (find _ _) as [x |] eqn:Hx; [| done].
    exfalso. apply Habsent. apply find_some in Hx as [Hin Heq].
    apply Z.eqb_eq in Heq. subst e.
    apply list_elem_of_In. by apply in_map.
Qed.

Lemma hiomap_xlate_errno_first_match_witness :
  (77 ∉ map err (removelast errno_cc_map))
  /\ hiomap_xlate_errno 77 = IPMI_CC_UNSPECIFIED_ERROR.
Proof.
  assert (77 ∉ map err (removelast errno_cc_map)) as H.
  { intros Hin. apply list_elem_of_In in Hin. simpl in Hin.
    unfold EBUSY, ENOTSUP, ETIMEDOUT, ENOSPC, EINVAL, ENODEV, EPERM, EACCES
      in Hin. intuition lia. }
  split; [exact H |].
  exact (proj2 (proj2 (proj2 (hiomap_xlate_errno_first_match 77))) H).
Defined.

(** ** The dispatcher on an envelope

    An envelope is a request of at least two bytes: command id, sequence
    number, payload. *)

Lemma hiomap_dispatch_short b request response ctx :
  (length request < 2)%nat ->
  hiomap_dispatch b request response ctx =
    Some (mk_result IPMI_CC_REQ_DATA_LEN_INVALID response 0 ctx []).
Proof.
  intros H. unfold hiomap_dispatch.
  destruct (Z.ltb_spec (Z.of_nat (length request)) 2); [done | lia].
Qed.

Lemma hiomap_dispatch_envelope b c s payload response ctx :
  hiomap_dispatch b (c :: s :: payload) response ctx =
    if (c =? 0) || (c >? 10)
    then Some (mk_result IPMI_CC_PARM_OUT_OF_RANGE response 0 ctx [])
    else if negb (is_unversioned c) && (seq ctx =? s)
    then Some (mk_result IPMI_CC_INVALID_FIELD_REQUEST response 0 ctx [])
    else
      match hiomap_commands !! Z.to_nat c with
      | Some (Some handler) =>
          let r := handler b payload (drop 2 response)
                     (Z.of_nat (length payload)) (set_seq s ctx) in
          if negb (res_cc r =? IPMI_CC_OK)
          then Some (mk_result (res_cc r) (take 2 response ++ res_response r)
                               0 (res_ctx r) (res_calls r))
          else Some (mk_result (res_cc r)
                       (<[1%nat := seq (res_ctx r)]>
                          (<[0%nat := c]>
                             (take 2 response ++ res_response r)))
                       (res_data_len r + 2) (res_ctx r) (res_calls r))
      | _ => None
      end.
Proof.
  unfold hiomap_dispatch.
  destruct (Z.ltb_spec (Z.of_nat (length (c :: s :: payload))) 2) as [H | _];
    [simpl length in H; lia |].
  replace (Z.of_nat (length (c :: s :: payload)) - 2)
    with (Z.of_nat (length payload)) by (simpl length; lia).
  reflexivity.
Qed.

Lemma valid_command_cases c :
  1 <= c <= 10 ->
  c = 1 \/ c = 2 \/ c = 3 \/ c = 4 \/ c = 5 \/ c = 6 \/ c = 7 \/ c = 8
  \/ c = 9 \/ c = 10.
Proof. lia. Qed.

Ltac each_command H :=
  apply valid_command_cases in H;
  destruct H as [-> | [-> | [-> | [-> | [-> | [-> | [-> | [-> | [-> | ->]]]]]]]]].

Lemma hiomap_commands_valid c :
  1 <= c <= 10 ->
  exists handler, hiomap_commands !! Z.to_nat c = Some (Some handler).
Proof. intros H. each_command H; eexists; reflexivity. Qed.

Lemma hiomap_commands_slot c handler :
  hiomap_commands !! Z.to_nat c = Some (Some handler) -> 1 <= c <= 10.
Proof.
  intros H. destruct (Z_lt_ge_dec c 1) as [Hlt | Hge].
  - replace (Z.to_nat c) with 0%nat in H by lia. done.
  - split; [lia |]. destruct (Z_le_gt_dec c 10) as [| Hgt]; [done |].
    apply lookup_lt_Some in H. simpl in H. lia.
Qed.

(** No handler of the table touches the sequence number or the lookup
    table of the session. *)
Lemma handlers_frame c handler b request response data_len ctx :
  hiomap_commands !! Z.to_nat c = Some (Some handler) ->
  seq (res_ctx (handler b request response data_len ctx)) = seq ctx
  /\ event_lookup (res_ctx (handler b request response data_len ctx))
     = event_lookup ctx.
Proof.
  intros H. pose proof (hiomap_commands_slot _ _ H) as Hc.
  each_command Hc; injection H as <-;
    unfold hiomap_reset, hiomap_get_info, hiomap_get_flash_info,
      hiomap_create_read_window, hiomap_create_write_window,
      hiomap_create_window, hiomap_close_window, hiomap_mark_dirty,
      hiomap_flush, hiomap_ack, hiomap_erase;
    repeat match goal with
           | |- context [if ?c then _ else _] => destruct c
           | |- context [match b ?m with _ => _ end] => destruct (b m)
           end; done.
Qed.

Lemma handlers_short c handler b request response data_len ctx :
  hiomap_commands !! Z.to_nat c = Some (Some handler) ->
  0 <= data_len < payload_min c ->
  handler b request response data_len ctx =
    mk_result IPMI_CC_REQ_DATA_LEN_INVALID response data_len ctx [].
Proof.
  intros H Hlen. pose proof (hiomap_commands_slot _ _ H) as Hc.
  each_command Hc; injection H as <-;
    match type of Hlen with
    | context [payload_min ?k] =>
        let v := eval vm_compute in (payload_min k) in
        change (payload_min k) with v in Hlen
    end; try lia;
    unfold hiomap_get_info, hiomap_create_read_window,
      hiomap_create_write_window, hiomap_create_window, hiomap_close_window,
      hiomap_mark_dirty, hiomap_ack, hiomap_erase;
    match goal with
    | |- context [?x <? ?y] => destruct (Z.ltb_spec x y); [done | lia]
    end.
Qed.

(** The return codes a handler of the table can produce. *)
Lemma handlers_cc c handler b request response data_len ctx :
  hiomap_commands !! Z.to_nat c = Some (Some handler) ->
  let r := handler b request response data_len ctx in
  res_cc r = IPMI_CC_OK
  \/ res_cc r = IPMI_CC_REQ_DATA_LEN_INVALID
  \/ exists e, res_cc r = hiomap_xlate_errno e.
Proof.
  intros H. pose proof (hiomap_commands_slot _ _ H) as Hc.
  each_command Hc; injection H as <-;
    unfold hiomap_reset, hiomap_get_info, hiomap_get_flash_info,
      hiomap_create_read_window, hiomap_create_write_window,
      hiomap_create_window, hiomap_close_window, hiomap_mark_dirty,
      hiomap_flush, hiomap_ack, hiomap_erase;
    repeat match goal with
           | |- context [if ?c then _ else _] => destruct c
           | |- context [match b ?m with _ => _ end] => destruct (b m)
           end; simpl; rewrite ?hiomap_xlate_errno_u8; eauto.
Qed.

Lemma hiomap_xlate_errno_in_table e :
  hiomap_xlate_errno e ∈ map cc errno_cc_map.
Proof.
  pose proof (errno_walk_total e) as H.
  apply errno_walk_first in H as (pre & entry & post & -> & _ & _ & ->).
  rewrite map_app. apply elem_of_app. right. simpl. apply list_elem_of_here.
Qed.

Lemma hiomap_xlate_errno_not_invalid_field e :
  hiomap_xlate_errno e <> IPMI_CC_INVALID_FIELD_REQUEST.
Proof.
  pose proof (hiomap_xlate_errno_in_table e) as H. intros Heq.
  rewrite Heq in H. apply list_elem_of_In in H. simpl in H.
  unfold IPMI_CC_INVALID_FIELD_REQUEST, IPMI_CC_OK, IPMI_CC_BUSY,
    IPMI_CC_INVALID, IPMI_CC_PARM_OUT_OF_RANGE, IPMI_CC_SENSOR_INVALID,
    IPMI_CC_INSUFFICIENT_PRIVILEGE, IPMI_CC_UNSPECIFIED_ERROR in H.
  intuition lia.
Qed.

Lemma sequence_accepted_check ctx c s :
  sequence_accepted ctx c s ->
  negb (is_unversioned c) && (seq ctx =? s) = false.
Proof.
  intros [-> | Hne]; [done |].
  destruct (Z.eqb_spec (seq ctx) s); [done |]. apply andb_false_r.
Qed.

Lemma valid_command_check c :
  1 <= c <= 10 -> (c =? 0) || (c >? 10) = false.
Proof.
  intros H. destruct (Z.eqb_spec c 0); [lia |].
  destruct (Z.gtb_spec c 10); [lia | done].
Qed.

(** The dispatcher on an envelope that passes the bounds and sequence
    checks: the handler of the slot runs on the session with the sequence
    number already stored. *)
Lemma hiomap_dispatch_accepted b c s payload response ctx handler :
  hiomap_commands !! Z.to_nat c = Some (Some handler) ->
  sequence_accepted ctx c s ->
  let r := handler b payload (drop 2 response) (Z.of_nat (length payload))
             (set_seq s ctx) in
  hiomap_dispatch b (c :: s :: payload) response ctx =
    if negb (res_cc r =? IPMI_CC_OK)
    then Some (mk_result (res_cc r) (take 2 response ++ res_response r)
                         0 (res_ctx r) (res_calls r))
    else Some (mk_result (res_cc r)
                 (<[1%nat := seq (res_ctx r)]>
                    (<[0%nat := c]> (take 2 response ++ res_response r)))
                 (res_data_len r + 2) (res_ctx r) (res_calls r)).
Proof.
  intros H Hacc. rewrite hiomap_dispatch_envelope.
  rewrite valid_command_check by (by eapply hiomap_commands_slot).
  rewrite sequence_accepted_check by done. by rewrite H.
Qed.

(** C1. An envelope with a valid command id outside the unversioned set
    whose sequence byte equals the last-seen sequence number is rejected
    with the invalid-field status and response length zero; the session,
    hence the stored sequence number, is the one before the attempt, and
    no backend call is issued. *)
Theorem hiomap_dispatch_duplicate_sequence b c payload response ctx :
  1 <= c <= 10 ->
  c <> HIOMAP_C_RESET -> c <> HIOMAP_C_GET_INFO -> c <> HIOMAP_C_ACK ->
  hiomap_dispatch b (c :: seq ctx :: payload) response ctx =
    Some (mk_result IPMI_CC_INVALID_FIELD_REQUEST response 0 ctx []).
Proof.
  intros Hc H1 H2 H9. rewrite hiomap_dispatch_envelope.
  rewrite valid_command_check by done.
  assert (is_unversioned c = false) as ->.
  { unfold is_unversioned.
    destruct (Z.eqb_spec c HIOMAP_C_RESET); [done |].
    destruct (Z.eqb_spec c HIOMAP_C_GET_INFO); [done |].
    by destruct (Z.eqb_spec c HIOMAP_C_ACK). }
  by rewrite Z.eqb_refl.
Qed.

Lemma hiomap_dispatch_duplicate_sequence_witness :
  hiomap_dispatch (backend_replies []) [HIOMAP_C_FLUSH; 7] response_buffer
                  (set_seq 7 initial_hiomap) =
    Some (mk_result IPMI_CC_INVALID_FIELD_REQUEST response_buffer 0
                    (set_seq 7 initial_hiomap) []).
Proof.
  apply (hiomap_dispatch_duplicate_sequence (backend_replies [])
           HIOMAP_C_FLUSH [] response_buffer (set_seq 7 initial_hiomap));
    unfold HIOMAP_C_FLUSH, HIOMAP_C_RESET, HIOMAP_C_GET_INFO, HIOMAP_C_ACK;
    lia.
Defined.

(** C2. For an envelope that passes the frame, bounds and sequence checks
    the handler runs on the session in which the incoming sequence byte is
    already stored, and the dispatcher returns the handler's status and
    session: whatever the status, the stored sequence number is the
    request's. *)
Theorem hiomap_dispatch_commits_sequence b c s payload response ctx :
  1 <= c <= 10 ->
  sequence_accepted ctx c s ->
  exists handler r,
    hiomap_commands !! Z.to_nat c = Some (Some handler)
    /\ hiomap_dispatch b (c :: s :: payload) response ctx = Some r
    /\ res_cc r =
         res_cc (handler b payload (drop 2 response)
                   (Z.of_nat (length payload)) (set_seq s ctx))
    /\ res_ctx r =
         res_ctx (handler b payload (drop 2 response)
                    (Z.of_nat (length payload)) (set_seq s ctx))
    /\ seq (res_ctx r) = s.
Proof.
  intros Hc Hacc. destruct (hiomap_commands_valid c Hc) as [handler Hh].
  pose proof (hiomap_dispatch_accepted b c s payload response ctx handler
                Hh Hacc) as Hd. simpl in Hd.
  pose proof (handlers_frame c handler b payload (drop 2 response)
                (Z.of_nat (length payload)) (set_seq s ctx) Hh) as [Hseq _].
  exists handler. destruct (negb _) in Hd;
    (eexists; split; [done |]; split; [exact Hd |]; simpl; by rewrite Hseq).
Qed.

Lemma hiomap_dispatch_commits_sequence_witness :
  exists r,
    hiomap_dispatch (backend_fails EBUSY) [HIOMAP_C_FLUSH; 7]
                    response_buffer initial_hiomap = Some r
    /\ res_cc r = IPMI_CC_BUSY
    /\ seq (res_ctx r) = 7.
Proof.
  destruct (hiomap_dispatch_commits_sequence (backend_fails EBUSY)
              HIOMAP_C_FLUSH 7 [] response_buffer initial_hiomap)
    as (handler & r & Hh & Hd & Hcc & _ & Hseq).
  - unfold HIOMAP_C_FLUSH. lia.
  - right. simpl. lia.
  - injection Hh as <-. exists r. split; [exact Hd |]. split; [| exact Hseq].
    rewrite Hcc. reflexivity.
Defined.

(** C4. Framing errors are settled by the dispatcher and the handlers'
    own length checks, with no backend call and response length zero: a
    request shorter than two bytes is too short; command id 0 or one past
    the table is out of range; and an envelope that passes the sequence
    check but whose payload is shorter than the command's minimum (one
    byte for Get-Info, Close-Window and Acknowledge, four for the window,
    dirty and erase commands) is too short. *)
Theorem hiomap_dispatch_framing_errors b response ctx :
  (forall request,
     (length request < 2)%nat ->
     hiomap_dispatch b request response ctx =
       Some (mk_result IPMI_CC_REQ_DATA_LEN_INVALID response 0 ctx []))
  /\ (forall c s payload,
        c = 0 \/ 10 < c ->
        hiomap_dispatch b (c :: s :: payload) response ctx =
          Some (mk_result IPMI_CC_PARM_OUT_OF_RANGE response 0 ctx []))
  /\ (forall c s payload,
        1 <= c <= 10 ->
        sequence_accepted ctx c s ->
        Z.of_nat (length payload) < payload_min c ->
        hiomap_dispatch b (c :: s :: payload) response ctx =
          Some (mk_result IPMI_CC_REQ_DATA_LEN_INVALID response 0
                          (set_seq s ctx) []))
  /\ payload_min HIOMAP_C_GET_INFO = 1
  /\ payload_min HIOMAP_C_CREATE_READ_WINDOW = 4
  /\ payload_min HIOMAP_C_CREATE_WRITE_WINDOW = 4
  /\ payload_min HIOMAP_C_MARK_DIRTY = 4
  /\ payload_min HIOMAP_C_ERASE = 4
  /\ payload_min HIOMAP_C_CLOSE_WINDOW = 1
  /\ payload_min HIOMAP_C_ACK = 1.
Proof.
  split; [| split; [| split; [| by repeat split]]].
  - intros request Hlen. by apply hiomap_dispatch_short.
  - intros c s payload Hc. rewrite hiomap_dispatch_envelope.
    destruct Hc as [-> | Hc]; [done |].
    destruct (Z.eqb_spec c 0); [done |].
    destruct (Z.gtb_spec c 10); [done | lia].
  - intros c s payload Hc Hacc Hlen.
    destruct (hiomap_commands_valid c Hc) as [handler Hh].
    rewrite (hiomap_dispatch_accepted b c s payload response ctx handler)
      by done.
    rewrite (handlers_short c handler) by (done || lia).
    simpl. by rewrite take_drop.
Qed.

Lemma hiomap_dispatch_framing_errors_witness :
  hiomap_dispatch (backend_replies []) [HIOMAP_C_GET_INFO] response_buffer
                  initial_hiomap =
    Some (mk_result IPMI_CC_REQ_DATA_LEN_INVALID response_buffer 0
                    initial_hiomap [])
  /\ hiomap_dispatch (backend_replies []) [11; 3; 0] response_buffer
                     initial_hiomap =
       Some (mk_result IPMI_CC_PARM_OUT_OF_RANGE response_buffer 0
                       initial_hiomap [])
  /\ hiomap_dispatch (backend_replies []) [HIOMAP_C_ERASE; 3; 0; 0; 1]
                     response_buffer initial_hiomap =
       Some (mk_result IPMI_CC_REQ_DATA_LEN_INVALID response_buffer 0
                       (set_seq 3 initial_hiomap) []).
Proof.
  destruct (hiomap_dispatch_framing_errors (backend_replies [])
              response_buffer initial_hiomap) as (Hshort & Hrange & Hlen & _).
  split; [| split].
  - apply Hshort. simpl. lia.
  - apply Hrange. lia.
  - apply Hlen.
    + unfold HIOMAP_C_ERASE. lia.
    + right. simpl. lia.
    + reflexivity.
Defined.

Lemma set_seq_set_seq s last ctx : set_seq s (set_seq last ctx) = set_seq s ctx.
Proof. by destruct ctx. Qed.

(** C5. For Reset, Get-Info and Acknowledge the outcome of a dispatch does
    not depend on the last-seen sequence number, so repeating a sequence
    number is not rejected: the dispatcher returns a result whose status
    is never the invalid-field status, and stores the request's sequence
    number. *)
Theorem hiomap_dispatch_unversioned_repeat b c s payload response ctx :
  c = HIOMAP_C_RESET \/ c = HIOMAP_C_GET_INFO \/ c = HIOMAP_C_ACK ->
  (forall last,
     hiomap_dispatch b (c :: s :: payload) response (set_seq last ctx) =
     hiomap_dispatch b (c :: s :: payload) response ctx)
  /\ exists r,
       hiomap_dispatch b (c :: s :: payload) response ctx = Some r
       /\ res_cc r <> IPMI_CC_INVALID_FIELD_REQUEST
       /\ seq (res_ctx r) = s.
Proof.
  intros Hc.
  assert (is_unversioned c = true) as Hun
    by (by destruct Hc as [-> | [-> | ->]]).
  assert (1 <= c <= 10) as Hrange
    by (destruct Hc as [-> | [-> | ->]];
        unfold HIOMAP_C_RESET, HIOMAP_C_GET_INFO, HIOMAP_C_ACK; lia).
  split.
  - intros last. rewrite !hiomap_dispatch_envelope, Hun.
    rewrite valid_command_check by done. simpl negb. rewrite !andb_false_l. by rewrite set_seq_set_seq.
  - destruct (hiomap_commands_valid c Hrange) as [handler Hh].
    pose proof (hiomap_dispatch_accepted b c s payload response ctx handler
                  Hh (or_introl Hun)) as Hd. simpl in Hd.
    pose proof (handlers_frame c handler b payload (drop 2 response)
                  (Z.of_nat (length payload)) (set_seq s ctx) Hh)
      as [Hseq _].
    pose proof (handlers_cc c handler b payload (drop 2 response)
                  (Z.of_nat (length payload)) (set_seq s ctx) Hh) as Hcc.
    simpl in Hcc.
    assert (res_cc (handler b payload (drop 2 response)
                      (Z.of_nat (length payload)) (set_seq s ctx))
            <> IPMI_CC_INVALID_FIELD_REQUEST) as Hne.
    { destruct Hcc as [-> | [-> | [e ->]]];
        [done | done | apply hiomap_xlate_errno_not_invalid_field]. }
    destruct (negb _) in Hd;
      (eexists; split; [exact Hd |]; simpl; split; [exact Hne | exact Hseq]).
Qed.

Lemma hiomap_dispatch_unversioned_repeat_witness :
  exists r,
    hiomap_dispatch (backend_replies []) [HIOMAP_C_ACK; 7; 2]
                    response_buffer (set_seq 7 initial_hiomap) = Some r
    /\ res_cc r <> IPMI_CC_INVALID_FIELD_REQUEST
    /\ seq (res_ctx r) = 7.
Proof.
  refine (proj2 (hiomap_dispatch_unversioned_repeat (backend_replies [])
                   HIOMAP_C_ACK 7 [2] response_buffer
                   (set_seq 7 initial_hiomap) _)).
  right. right. reflexivity.
Defined.

(** ** The event table of the registration *)

Lemma initial_event_lookup_Some name v :
  initial_event_lookup !! name = Some v ->
  (name = "ProtocolReset" /\ v = 1) \/ (name = "WindowReset" /\ v = 2)
  \/ (name = "FlashControlLost" /\ v = 64) \/ (name = "DaemonReady" /\ v = 128).
Proof.
  unfold initial_event_lookup. intros H.
  repeat (apply lookup_insert_Some in H as [[<- <-] | [_ H]]; [auto |]).
  by rewrite lookup_empty in H.
Qed.

Lemma bit_cases_8 i :
  0 <= i < 8 ->
  i = 0 \/ i = 1 \/ i = 2 \/ i = 3 \/ i = 4 \/ i = 5 \/ i = 6 \/ i = 7.
Proof. lia. Qed.

Ltac each_bit H :=
  apply bit_cases_8 in H;
  destruct H as [-> | [-> | [-> | [-> | [-> | [-> | [-> | ->]]]]]]].

Lemma initial_event_lookup_disjoint : masks_disjoint initial_event_lookup.
Proof.
  intros n1 n2 v1 v2 i Hne H1 H2 Hi Hbit.
  apply initial_event_lookup_Some in H1, H2.
  destruct H1 as [[-> ->] | [[-> ->] | [[-> ->] | [-> ->]]]];
    destruct H2 as [[-> ->] | [[-> ->] | [[-> ->] | [-> ->]]]];
    try done; each_bit Hi; done.
Qed.

(** ** Acknowledge *)

Lemma hiomap_ack_reply b m rest response data_len ctx body :
  1 <= data_len ->
  b (ack_call m) = Reply body ->
  hiomap_ack b (m :: rest) response data_len ctx =
    mk_result IPMI_CC_OK response 0
      (set_bmc_events (u8 (Z.land (bmc_events ctx) (Z.lnot m))) ctx)
      [ack_call m].
Proof.
  intros Hlen Hb. unfold hiomap_ack.
  destruct (Z.ltb_spec data_len 1); [lia |].
  change (byte_at (m :: rest) 0) with m. fold (ack_call m). by rewrite Hb.
Qed.

Lemma hiomap_ack_error b m rest response data_len ctx e :
  1 <= data_len ->
  b (ack_call m) = SdBusError e ->
  hiomap_ack b (m :: rest) response data_len ctx =
    mk_result (hiomap_xlate_errno e) response data_len ctx [ack_call m].
Proof.
  intros Hlen Hb. unfold hiomap_ack.
  destruct (Z.ltb_spec data_len 1); [lia |].
  change (byte_at (m :: rest) 0) with m. fold (ack_call m). rewrite Hb.
  by rewrite hiomap_xlate_errno_u8.
Qed.

Lemma ack_bits old m i :
  0 <= i < 8 ->
  Z.testbit (u8 (Z.land old (Z.lnot m))) i
  = Z.testbit old i && negb (Z.testbit m i).
Proof.
  intros Hi. rewrite u8_testbit by done.
  rewrite Z.land_spec, Z.lnot_spec by lia. done.
Qed.

Lemma hiomap_ack_slot :
  hiomap_commands !! Z.to_nat HIOMAP_C_ACK = Some (Some hiomap_ack).
Proof. reflexivity. Qed.

(** C3. An acknowledge request with mask byte [m]: when the backend
    answers the [Ack] call, the dispatcher returns OK and a bit of the
    event bitmask is set afterwards exactly when it was set before and is
    not in [m] (for [m = 0b00000010] bit 1 is cleared and every other bit
    keeps its value); when the backend fails the call with errno [e], the
    dispatcher returns the translation of [e] and the event bitmask is the
    one before. *)
Theorem hiomap_dispatch_ack b s m rest response ctx :
  (forall body,
     b (ack_call m) = Reply body ->
     exists r,
       hiomap_dispatch b (HIOMAP_C_ACK :: s :: m :: rest) response ctx
         = Some r
       /\ res_cc r = IPMI_CC_OK
       /\ res_calls r = [ack_call m]
       /\ 0 <= bmc_events (res_ctx r) < 256
       /\ (forall i, 0 <= i < 8 ->
             Z.testbit (bmc_events (res_ctx r)) i
             = Z.testbit (bmc_events ctx) i && negb (Z.testbit m i))
       /\ (m = 2 ->
           Z.testbit (bmc_events (res_ctx r)) 1 = false
           /\ forall i, 0 <= i < 8 -> i <> 1 ->
                Z.testbit (bmc_events (res_ctx r)) i
                = Z.testbit (bmc_events ctx) i))
  /\ (forall e,
        b (ack_call m) = SdBusError e ->
        exists r,
          hiomap_dispatch b (HIOMAP_C_ACK :: s :: m :: rest) response ctx
            = Some r
          /\ res_cc r = hiomap_xlate_errno e
          /\ res_calls r = [ack_call m]
          /\ bmc_events (res_ctx r) = bmc_events ctx).
Proof.
  pose proof (hiomap_dispatch_accepted b HIOMAP_C_ACK s (m :: rest) response
                ctx hiomap_ack hiomap_ack_slot (or_introl eq_refl)) as Hd.
  simpl in Hd.
  assert (1 <= Z.of_nat (length (m :: rest))) as Hlen by (simpl length; lia).
  split.
  - intros body Hb.
    rewrite (hiomap_ack_reply b m rest _ _ _ body Hlen Hb) in Hd.
    simpl in Hd. eexists. split; [exact Hd |].
    cbn [res_cc res_ctx res_calls bmc_events set_bmc_events].
    split; [done |]. split; [done |]. split; [apply u8_range |].
    split; [intros i Hi; by apply ack_bits |].
    intros Hm. split.
    + rewrite ack_bits by lia. subst m. apply andb_false_r.
    + intros i Hi Hne. rewrite ack_bits by done. subst m.
      each_bit Hi; try done; apply andb_true_r.
  - intros e Hb.
    rewrite (hiomap_ack_error b m rest _ _ _ e Hlen Hb) in Hd.
    simpl in Hd. destruct (negb _) in Hd; (eexists; split; [exact Hd |]; done).
Qed.

Lemma hiomap_dispatch_ack_witness :
  (exists r,
     hiomap_dispatch (backend_replies []) [HIOMAP_C_ACK; 0; 2]
                     response_buffer (set_bmc_events 0xff initial_hiomap)
       = Some r
     /\ res_cc r = IPMI_CC_OK
     /\ Z.testbit (bmc_events (res_ctx r)) 1 = false)
  /\ (exists r,
        hiomap_dispatch (backend_fails EBUSY) [HIOMAP_C_ACK; 0; 2]
                        response_buffer (set_bmc_events 0xff initial_hiomap)
          = Some r
        /\ res_cc r = IPMI_CC_BUSY
        /\ bmc_events (res_ctx r) = 0xff).
Proof.
  split.
  - destruct (proj1 (hiomap_dispatch_ack (backend_replies []) 0 2 []
                       response_buffer (set_bmc_events 0xff initial_hiomap))
                    [] eq_refl)
      as (r & Hd & Hcc & _ & _ & _ & Hbit).
    exists r. split; [exact Hd |]. split; [exact Hcc |].
    exact (proj1 (Hbit eq_refl)).
  - destruct (proj2 (hiomap_dispatch_ack (backend_fails EBUSY) 0 2 []
                       response_buffer (set_bmc_events 0xff initial_hiomap))
                    EBUSY eq_refl)
      as (r & Hd & Hcc & _ & Hev).
    exists r. split; [exact Hd |]. split; [exact Hcc |]. exact Hev.
Defined.

(** C10. The acknowledge handler applies the mask as it is.  In every
    case it leaves the sequence number and the lookup table of the session
    alone.  When the backend answers the call for the mask byte [m], the
    session is the old one with the event bitmask replaced by
    [old AND NOT m]: a bit of [m] among bits 2 to 5, which no name of the
    event table maps to, is cleared like any other. *)
Theorem hiomap_ack_raw_mask b request response data_len ctx :
  seq (res_ctx (hiomap_ack b request response data_len ctx)) = seq ctx
  /\ event_lookup (res_ctx (hiomap_ack b request response data_len ctx))
     = event_lookup ctx
  /\ (forall name v i,
        initial_event_lookup !! name = Some v -> 2 <= i <= 5 ->
        Z.testbit v i = false)
  /\ (forall m rest body,
        request = m :: rest ->
        1 <= data_len ->
        b (ack_call m) = Reply body ->
        res_ctx (hiomap_ack b request response data_len ctx)
        = set_bmc_events (u8 (Z.land (bmc_events ctx) (Z.lnot m))) ctx
        /\ (0 <= bmc_events ctx < 256 ->
            bmc_events (res_ctx (hiomap_ack b request response data_len ctx))
            = Z.land (bmc_events ctx) (Z.lnot m))
        /\ (forall i, 2 <= i <= 5 -> Z.testbit m i = true ->
              Z.testbit
                (bmc_events
                   (res_ctx (hiomap_ack b request response data_len ctx))) i
              = false)).
Proof.
  pose proof (handlers_frame HIOMAP_C_ACK hiomap_ack b request response
                data_len ctx hiomap_ack_slot) as [Hseq Hlookup].
  split; [done |]. split; [done |]. split.
  - intros name v i Hv Hi. apply initial_event_lookup_Some in Hv.
    assert (i = 2 \/ i = 3 \/ i = 4 \/ i = 5) as Hcases by lia.
    destruct Hv as [[_ ->] | [[_ ->] | [[_ ->] | [_ ->]]]];
      destruct Hcases as [-> | [-> | [-> | ->]]]; done.
  - intros m rest body -> Hlen Hb.
    rewrite (hiomap_ack_reply b m rest response data_len ctx body Hlen Hb).
    cbn [res_ctx bmc_events set_bmc_events].
    split; [done |]. split.
    + intros Hold. by apply u8_land_lnot.
    + intros i Hi Hm. rewrite ack_bits by lia. rewrite Hm. apply andb_false_r.
Qed.

Lemma hiomap_ack_raw_mask_witness :
  bmc_events (res_ctx (hiomap_ack (backend_replies []) [0x3c]
                         response_buffer 1
                         (set_bmc_events 0xff initial_hiomap)))
  = Z.land 0xff (Z.lnot 0x3c)
  /\ Z.testbit
       (bmc_events (res_ctx (hiomap_ack (backend_replies []) [0x3c]
                               response_buffer 1
                               (set_bmc_events 0xff initial_hiomap)))) 4
     = false.
Proof.
  destruct (proj2 (proj2 (proj2
              (hiomap_ack_raw_mask (backend_replies []) [0x3c]
                 response_buffer 1 (set_bmc_events 0xff initial_hiomap))))
              0x3c [] [] eq_refl ltac:(lia) eq_refl)
    as (_ & Hland & Hbits).
  split.
  - apply Hland. simpl. lia.
  - apply Hbits; [lia | reflexivity].
Defined.

(** ** Notifications *)

Lemma property_update_step_absent ctx x :
  event_lookup ctx !! x.1 = None -> property_update_step ctx x = ctx.
Proof. intros H. unfold property_update_step. by rewrite H. Qed.

Lemma property_update_step_frame ctx x :
  event_lookup (property_update_step ctx x) = event_lookup ctx
  /\ seq (property_update_step ctx x) = seq ctx.
Proof.
  unfold property_update_step.
  destruct (event_lookup ctx !! x.1); [| done]. by destruct x.2.
Qed.

Lemma property_update_step_bits ctx name value v i :
  event_lookup ctx !! name = Some v ->
  0 <= i < 8 ->
  Z.testbit (bmc_events (property_update_step ctx (name, value))) i
  = if Z.testbit v i then value else Z.testbit (bmc_events ctx) i.
Proof.
  intros Hv Hi. unfold property_update_step. simpl fst. simpl snd.
  rewrite Hv. destruct value; cbn [bmc_events set_bmc_events].
  - rewrite u8_testbit, Z.lor_spec, u8_testbit by done.
    destruct (Z.testbit v i); [apply orb_true_r | apply orb_false_r].
  - rewrite u8_testbit, Z.land_spec, Z.lnot_spec, u8_testbit by lia.
    destruct (Z.testbit v i); [apply andb_false_r | apply andb_true_r].
Qed.

(** The loop of the property handler over a table with disjoint masks and
    a map delivered with each key once. *)
Lemma property_update_fold table :
  masks_disjoint table ->
  forall msgData ctx,
    event_lookup ctx = table ->
    NoDup msgData.*1 ->
    event_lookup (foldl property_update_step ctx msgData) = table
    /\ seq (foldl property_update_step ctx msgData) = seq ctx
    /\ (forall name value v i,
          (name, value) ∈ msgData -> table !! name = Some v ->
          0 <= i < 8 -> Z.testbit v i = true ->
          Z.testbit (bmc_events (foldl property_update_step ctx msgData)) i
          = value)
    /\ (forall i,
          0 <= i < 8 ->
          (forall name value v,
             (name, value) ∈ msgData -> table !! name = Some v ->
             Z.testbit v i = false) ->
          Z.testbit (bmc_events (foldl property_update_step ctx msgData)) i
          = Z.testbit (bmc_events ctx) i).
Proof.
  intros Hdisj msgData.
  induction msgData as [| [n0 b0] msgData IH]; intros ctx Htable Hnodup.
  - simpl. split; [done |]. split; [done |]. split; [| done].
    intros ???? Hin. by apply elem_of_nil in Hin.
  - simpl in Hnodup. apply NoDup_cons in Hnodup as [Hfresh Hnodup].
    pose proof (property_update_step_frame ctx (n0, b0)) as [Hl1 Hs1].
    destruct (IH (property_update_step ctx (n0, b0)))
      as (Hl & Hs & Hset & Hkeep); [congruence | done |].
    simpl foldl. split; [done |]. split; [congruence |]. split.
    + intros name value v i Hin Hv Hi Hbit.
      apply elem_of_cons in Hin as [[= -> ->] | Hin]; [| by eapply Hset].
      rewrite Hkeep; [| done |].
      * rewrite (property_update_step_bits ctx n0 b0 v i) by congruence.
        by rewrite Hbit.
      * intros name value v' Hin Hv'.
        apply (Hdisj n0 name v v' i); try done.
        intros ->. apply Hfresh. apply list_elem_of_fmap.
        by exists (name, value).
    + intros i Hi Hnone. rewrite Hkeep; [| done |].
      * destruct (table !! n0) as [v |] eqn:Hv.
        -- rewrite (property_update_step_bits ctx n0 b0 v i) by congruence.
           rewrite (Hnone n0 b0 v); [done | | done]. apply list_elem_of_here.
        -- rewrite property_update_step_absent; [done |]. simpl. congruence.
      * intros name value v Hin. apply (Hnone name value v).
        by apply list_elem_of_further.
Qed.

Lemma hiomap_same_but_events ctx ctx' :
  event_lookup ctx' = event_lookup ctx -> seq ctx' = seq ctx ->
  ctx' = set_bmc_events (bmc_events ctx') ctx.
Proof. destruct ctx, ctx'. simpl. by intros -> ->. Qed.

Lemma flash_control_lost_slot :
  initial_event_lookup !! "FlashControlLost" = Some BMC_EVENT_FLASH_CTRL_LOST.
Proof. reflexivity. Qed.

(** C8. A property notification on a session holding the event table of
    the registration, delivering each name once: the handler returns the
    old session with a new event bitmask and pushes exactly one event
    command, carrying that bitmask.  In the new bitmask the bit of every
    delivered name of the table is the delivered boolean, and a bit of no
    delivered name of the table keeps its value, so names absent from the
    table change nothing.  Delivering FlashControlLost alone sets bit 6
    when true and clears it when false, and leaves the other bits. *)
Theorem hiomap_handle_property_update_bits ctx iface msgData :
  event_lookup ctx = initial_event_lookup ->
  NoDup msgData.*1 ->
  exists new,
    hiomap_handle_property_update ctx (iface, msgData)
    = mk_notify 0 (set_bmc_events new ctx) [(IPMI_CMD_HIOMAP_EVENT, new)]
    /\ (forall name value v i,
          (name, value) ∈ msgData ->
          initial_event_lookup !! name = Some v ->
          0 <= i < 8 -> Z.testbit v i = true ->
          Z.testbit new i = value)
    /\ (forall i,
          0 <= i < 8 ->
          (forall name value v,
             (name, value) ∈ msgData ->
             initial_event_lookup !! name = Some v ->
             Z.testbit v i = false) ->
          Z.testbit new i = Z.testbit (bmc_events ctx) i)
    /\ (forall value,
          msgData = [("FlashControlLost", value)] ->
          Z.testbit new 6 = value
          /\ forall i, 0 <= i < 8 -> i <> 6 ->
               Z.testbit new i = Z.testbit (bmc_events ctx) i).
Proof.
  intros Htable Hnodup.
  destruct (property_update_fold initial_event_lookup
              initial_event_lookup_disjoint msgData ctx Htable Hnodup)
    as (Hl & Hs & Hset & Hkeep).
  exists (bmc_events (foldl property_update_step ctx msgData)).
  split; [| split; [exact Hset | split; [exact Hkeep |]]].
  - unfold hiomap_handle_property_update. f_equal.
    apply hiomap_same_but_events; congruence.
  - intros value ->. split.
    + apply (Hset "FlashControlLost" value BMC_EVENT_FLASH_CTRL_LOST 6);
        [apply list_elem_of_here | apply flash_control_lost_slot | lia | done].
    + intros i Hi Hne. apply Hkeep; [done |].
      intros name value' v Hin Hv.
      apply list_elem_of_singleton in Hin as [= -> ->].
      rewrite flash_control_lost_slot in Hv. injection Hv as <-.
      each_bit Hi; done.
Qed.

Lemma hiomap_handle_property_update_bits_witness :
  exists new,
    hiomap_handle_property_update initial_hiomap
      (HIOMAPD_IFACE_V2, [("FlashControlLost", true); ("Unknown", true)])
    = mk_notify 0 (set_bmc_events new initial_hiomap)
                [(IPMI_CMD_HIOMAP_EVENT, new)]
    /\ Z.testbit new 6 = true.
Proof.
  destruct (hiomap_handle_property_update_bits initial_hiomap
              HIOMAPD_IFACE_V2
              [("FlashControlLost", true); ("Unknown", true)])
    as (new & Hr & Hset & _).
  - reflexivity.
  - by apply (bool_decide_unpack _).
  - exists new. split; [exact Hr |].
    apply (Hset "FlashControlLost" true BMC_EVENT_FLASH_CTRL_LOST 6);
      [apply list_elem_of_here | reflexivity | lia | reflexivity].
Defined.

Lemma hiomap_handle_signal_v2_unfold ctx name :
  hiomap_handle_signal_v2 ctx name =
    let new := u8 (Z.lor (bmc_events ctx)
                         (default 0 (event_lookup ctx !! name))) in
    mk_notify 0 (mk_hiomap (map_index (event_lookup ctx) name).2 new (seq ctx))
              [(IPMI_CMD_HIOMAP_EVENT, new)].
Proof.
  unfold hiomap_handle_signal_v2, map_index.
  by destruct (event_lookup ctx !! name).
Qed.

(** C9. A signal notification only ors the value the table holds for the
    name into the event bitmask: a bit is set afterwards exactly when it
    was set before or is in that value, so every bit set before stays
    set; one event command carrying the new bitmask is pushed and the
    sequence number is untouched.  With the table's entry for WindowReset,
    the signal WindowReset leaves bit 1 set whatever the bitmask was. *)
Theorem hiomap_handle_signal_v2_sets_only ctx name :
  (forall i,
     0 <= i < 8 -> Z.testbit (bmc_events ctx) i = true ->
     Z.testbit (bmc_events (nres_ctx (hiomap_handle_signal_v2 ctx name))) i
     = true)
  /\ (forall i,
        0 <= i < 8 ->
        Z.testbit (bmc_events (nres_ctx (hiomap_handle_signal_v2 ctx name))) i
        = Z.testbit (bmc_events ctx) i
          || Z.testbit (default 0 (event_lookup ctx !! name)) i)
  /\ nres_sent (hiomap_handle_signal_v2 ctx name)
     = [(IPMI_CMD_HIOMAP_EVENT,
         bmc_events (nres_ctx (hiomap_handle_signal_v2 ctx name)))]
  /\ seq (nres_ctx (hiomap_handle_signal_v2 ctx name)) = seq ctx
  /\ (event_lookup ctx !! "WindowReset" = Some BMC_EVENT_WINDOW_RESET ->
      Z.testbit
        (bmc_events (nres_ctx (hiomap_handle_signal_v2 ctx "WindowReset"))) 1
      = true
      /\ event_lookup (nres_ctx (hiomap_handle_signal_v2 ctx "WindowReset"))
         = event_lookup ctx).
Proof.
  rewrite !hiomap_handle_signal_v2_unfold.
  cbn [nres_ctx nres_sent bmc_events seq event_lookup].
  assert (forall n i, 0 <= i < 8 ->
            Z.testbit (u8 (Z.lor (bmc_events ctx)
                                 (default 0 (event_lookup ctx !! n)))) i
            = Z.testbit (bmc_events ctx) i
              || Z.testbit (default 0 (event_lookup ctx !! n)) i) as Hbits.
  { intros n i Hi. by rewrite u8_testbit, Z.lor_spec. }
  split; [| split; [by apply Hbits | split; [done | split; [done |]]]].
  - intros i Hi Hold. by rewrite Hbits, Hold.
  - intros Hslot. split.
    + rewrite Hbits by lia. rewrite Hslot. apply orb_true_r.
    + unfold map_index. by rewrite Hslot.
Qed.

Lemma hiomap_handle_signal_v2_sets_only_witness :
  Z.testbit
    (bmc_events (nres_ctx (hiomap_handle_signal_v2
                             (set_bmc_events 0x40 initial_hiomap)
                             "WindowReset"))) 6 = true
  /\ Z.testbit
       (bmc_events (nres_ctx (hiomap_handle_signal_v2
                                (set_bmc_events 0x40 initial_hiomap)
                                "WindowReset"))) 1 = true.
Proof.
  destruct (hiomap_handle_signal_v2_sets_only
              (set_bmc_events 0x40 initial_hiomap) "WindowReset")
    as (Hkeep & _ & _ & _ & Hwindow).
  split.
  - apply Hkeep; [lia | reflexivity].
  - apply Hwindow. reflexivity.
Defined.

(** ** The session invariant

    Every session reached from start-up holds the event table of the
    registration and an event bitmask that fits a [uint8_t]; the
    dispatcher is defined on every request of bytes. *)

Lemma handlers_events_range c handler b request response data_len ctx :
  hiomap_commands !! Z.to_nat c = Some (Some handler) ->
  0 <= bmc_events ctx < 256 ->
  0 <= bmc_events (res_ctx (handler b request response data_len ctx)) < 256.
Proof.
  intros H Hrange. pose proof (hiomap_commands_slot _ _ H) as Hc.
  each_command Hc; injection H as <-;
    unfold hiomap_reset, hiomap_get_info, hiomap_get_flash_info,
      hiomap_create_read_window, hiomap_create_write_window,
      hiomap_create_window, hiomap_close_window, hiomap_mark_dirty,
      hiomap_flush, hiomap_ack, hiomap_erase;
    repeat match goal with
           | |- context [if ?c then _ else _] => destruct c
           | |- context [match b ?m with _ => _ end] => destruct (b m)
           end; try done; apply u8_range.
Qed.

Lemma hiomap_dispatch_session b request response ctx r :
  hiomap_dispatch b request response ctx = Some r ->
  event_lookup (res_ctx r) = event_lookup ctx
  /\ (0 <= bmc_events ctx < 256 -> 0 <= bmc_events (res_ctx r) < 256).
Proof.
  destruct request as [| c [| s payload]].
  - rewrite hiomap_dispatch_short by (simpl; lia). by intros [= <-].
  - rewrite hiomap_dispatch_short by (simpl; lia). by intros [= <-].
  - rewrite hiomap_dispatch_envelope.
    destruct ((c =? 0) || (c >? 10)); [by intros [= <-] |].
    destruct (negb (is_unversioned c) && (seq ctx =? s));
      [by intros [= <-] |].
    destruct (hiomap_commands !! Z.to_nat c) as [[handler |] |] eqn:Hh;
      [| done | done].
    pose proof (handlers_frame c handler b payload (drop 2 response)
                  (Z.of_nat (length payload)) (set_seq s ctx) Hh)
      as [_ Hlookup].
    pose proof (handlers_events_range c handler b payload (drop 2 response)
                  (Z.of_nat (length payload)) (set_seq s ctx) Hh) as Hrange.
    simpl. destruct (negb _); intros [= <-]; simpl; by split.
Qed.

Lemma hiomap_dispatch_defined b request response ctx :
  Forall (fun x => 0 <= x < 256) request ->
  is_Some (hiomap_dispatch b request response ctx).
Proof.
  intros Hbytes. destruct request as [| c [| s payload]].
  - by rewrite hiomap_dispatch_short by (simpl; lia).
  - by rewrite hiomap_dispatch_short by (simpl; lia).
  - rewrite hiomap_dispatch_envelope.
    apply Forall_cons in Hbytes as [Hc _].
    destruct (Z.eq_dec c 0) as [-> | Hc0]; [done |].
    destruct (Z_le_gt_dec c 10) as [Hc10 | Hc10].
    + rewrite valid_command_check by lia.
      destruct (hiomap_commands_valid c) as [handler Hh]; [lia |].
      unfold hiomap_command in *. rewrite Hh. cbn zeta.
      destruct (negb (is_unversioned c) && (seq ctx =? s)); [done |].
      by destruct (negb _).
    + destruct (Z.gtb_spec c 10); [| lia]. by rewrite orb_true_r.
Qed.

Lemma property_update_events_range msgData ctx :
  0 <= bmc_events ctx < 256 ->
  0 <= bmc_events (foldl property_update_step ctx msgData) < 256.
Proof.
  revert ctx. induction msgData as [| x msgData IH]; intros ctx Hrange;
    [done |].
  simpl. apply IH. unfold property_update_step.
  destruct (event_lookup ctx !! x.1); [| done].
  destruct x.2; apply u8_range.
Qed.

Lemma property_update_lookup msgData ctx :
  event_lookup (foldl property_update_step ctx msgData) = event_lookup ctx.
Proof.
  revert ctx. induction msgData as [| x msgData IH]; intros ctx; [done |].
  simpl. rewrite IH. apply property_update_step_frame.
Qed.

Lemma signal_names_registered name :
  name ∈ signal_names -> is_Some (initial_event_lookup !! name).
Proof.
  unfold signal_names. intros H.
  apply elem_of_cons in H as [-> | H]; [by eexists |].
  apply list_elem_of_singleton in H as ->. by eexists.
Qed.

Lemma reachable_invariant ctx :
  reachable ctx ->
  event_lookup ctx = initial_event_lookup /\ 0 <= bmc_events ctx < 256.
Proof.
  induction 1 as [| ctx ev ctx' _ [IHl IHr] Hstep]; [by split |].
  destruct ev as [b request response | [iface msgData] | name];
    simpl in Hstep.
  - destruct (hiomap_dispatch b request response ctx) as [r |] eqn:Hd;
      [| done].
    injection Hstep as <-.
    destruct (hiomap_dispatch_session _ _ _ _ _ Hd) as [Hl Hr].
    split; [congruence | by apply Hr].
  - injection Hstep as <-. simpl. split.
    + by rewrite property_update_lookup.
    + by apply property_update_events_range.
  - destruct (decide (name ∈ signal_names)) as [Hin |]; [| done].
    injection Hstep as <-. rewrite hiomap_handle_signal_v2_unfold.
    simpl. split; [| apply u8_range].
    destruct (signal_names_registered name Hin) as [v Hv].
    unfold map_index. rewrite IHl, Hv. done.
Qed.

(** * Further properties of the code *)

(** ** The codec: [get] and [put] with the endianness conversions *)

Lemma byte_at_insert_eq buf i v :
  (i < length buf)%nat -> byte_at (<[i := v]> buf) i = v.
Proof. intros H. unfold byte_at. by rewrite list_lookup_insert_eq. Qed.

Lemma byte_at_insert_ne buf i j v :
  i <> j -> byte_at (<[i := v]> buf) j = byte_at buf j.
Proof. intros H. unfold byte_at. by rewrite list_lookup_insert_ne. Qed.

Lemma u16_range v : 0 <= u16 v < 65536.
Proof. unfold u16. apply Z.mod_pos_bound. lia. Qed.

Lemma get_put_le16 buf i v :
  (S i < length buf)%nat -> get_le16 (put_le16 i v buf) i = u16 v.
Proof.
  intros H. unfold get_le16, put_le16.
  rewrite byte_at_insert_ne by lia.
  rewrite byte_at_insert_eq by lia.
  rewrite byte_at_insert_eq by (rewrite length_insert; lia).
  pose proof (Z.div_mod (u16 v) 256). lia.
Qed.

(** X1. Writing a 16-bit value with [put] after [htole16] and reading it back
    with [get] and [le16toh] gives the value, for a buffer that holds both
    bytes. *)
Theorem codec_le16_round_trip buf i v :
  (S i < length buf)%nat -> 0 <= v < 65536 ->
  get_le16 (put_le16 i v buf) i = v.
Proof.
  intros H Hv. rewrite get_put_le16 by done. unfold u16.
  by apply Z.mod_small.
Qed.

Lemma codec_le16_round_trip_witness :
  get_le16 (put_le16 2 0xBEEF response_buffer) 2 = 0xBEEF.
Proof.
  apply (codec_le16_round_trip response_buffer 2 0xBEEF); simpl; lia.
Defined.

Lemma bytes_insert buf i v : 0 <= v < 256 -> bytes buf -> bytes (<[i := v]> buf).
Proof. intros Hv Hb. by apply Forall_insert. Qed.

Lemma put_u8_bytes i v buf : bytes buf -> bytes (put_u8 i v buf).
Proof. apply bytes_insert, u8_range. Qed.

Lemma put_le16_bytes i v buf : bytes buf -> bytes (put_le16 i v buf).
Proof.
  intros Hb. pose proof (u16_range v) as Hr. unfold put_le16.
  apply bytes_insert; [| apply bytes_insert; [| done]].
  - split; [apply Z.div_pos; lia | apply Z.div_lt_upper_bound; lia].
  - apply Z.mod_pos_bound. lia.
Qed.

Lemma put_u8_length i v buf : length (put_u8 i v buf) = length buf.
Proof. apply length_insert. Qed.

Lemma put_le16_length i v buf : length (put_le16 i v buf) = length buf.
Proof. unfold put_le16. by rewrite !length_insert. Qed.

Lemma put_u8_drop n i v buf :
  (i < n)%nat -> drop n (put_u8 i v buf) = drop n buf.
Proof. intros H. by apply drop_insert_lt. Qed.

Lemma put_le16_drop n i v buf :
  (S i < n)%nat -> drop n (put_le16 i v buf) = drop n buf.
Proof.
  intros H. unfold put_le16. rewrite drop_insert_lt by done.
  apply drop_insert_lt. lia.
Qed.

(** [put] of a 16-bit value stores two bytes and changes no other
    element of the buffer. *)
Theorem put_le16_frame buf i v j :
  j <> i -> j <> S i ->
  byte_at (put_le16 i v buf) j = byte_at buf j
  /\ length (put_le16 i v buf) = length buf
  /\ (bytes buf -> bytes (put_le16 i v buf)).
Proof.
  intros Hi HSi. split; [| split].
  - unfold put_le16. by rewrite !byte_at_insert_ne.
  - apply put_le16_length.
  - apply put_le16_bytes.
Qed.

Lemma put_le16_frame_witness :
  byte_at (put_le16 2 0xBEEF [1; 2; 3; 4; 5]) 4 = 5
  /\ length (put_le16 2 0xBEEF [1; 2; 3; 4; 5]) = 5%nat.
Proof.
  destruct (put_le16_frame [1; 2; 3; 4; 5] 2 0xBEEF 4) as (H1 & H2 & _);
    [lia | lia |].
  split; [exact H1 | exact H2].
Defined.

(** ** What every handler does *)

Ltac handler_cases H b :=
  let Hc := fresh "Hc" in
  pose proof (hiomap_commands_slot _ _ H) as Hc;
  each_command Hc; injection H as <-;
  unfold hiomap_reset, hiomap_get_info, hiomap_get_flash_info,
    hiomap_create_read_window, hiomap_create_write_window,
    hiomap_create_window, hiomap_close_window, hiomap_mark_dirty,
    hiomap_flush, hiomap_ack, hiomap_erase;
  repeat match goal with
         | |- context [if ?c <? ?d then _ else _] => destruct (c <? d)
         | |- context [match b ?m with _ => _ end] => destruct (b m)
         end.

Lemma handlers_response c handler b request response data_len ctx :
  hiomap_commands !! Z.to_nat c = Some (Some handler) ->
  length (res_response (handler b request response data_len ctx))
  = length response
  /\ drop 6 (res_response (handler b request response data_len ctx))
     = drop 6 response
  /\ (bytes response ->
      bytes (res_response (handler b request response data_len ctx))).
Proof.
  intros H. handler_cases H b; cbn [res_response];
    rewrite ?put_le16_length, ?put_u8_length;
    rewrite ?put_le16_drop, ?put_u8_drop by lia;
    (split; [done |]; split; [done |]); intros Hb;
    repeat (apply put_le16_bytes || apply put_u8_bytes); done.
Qed.

(** A handler that does not return OK has left the response buffer, the
    session and [*data_len] alone. *)
Lemma handlers_failure c handler b request response data_len ctx :
  hiomap_commands !! Z.to_nat c = Some (Some handler) ->
  res_cc (handler b request response data_len ctx) <> IPMI_CC_OK ->
  res_response (handler b request response data_len ctx) = response
  /\ res_ctx (handler b request response data_len ctx) = ctx
  /\ res_data_len (handler b request response data_len ctx) = data_len.
Proof. intros H. handler_cases H b; cbn [res_cc]; done. Qed.

(** Only [hiomap_ack] writes to the session. *)
Lemma handlers_session c handler b request response data_len ctx :
  hiomap_commands !! Z.to_nat c = Some (Some handler) ->
  c <> HIOMAP_C_ACK ->
  res_ctx (handler b request response data_len ctx) = ctx.
Proof. intros H. handler_cases H b; cbn [res_ctx]; done. Qed.

Lemma handlers_calls c handler b request response data_len ctx :
  hiomap_commands !! Z.to_nat c = Some (Some handler) ->
  (length (res_calls (handler b request response data_len ctx)) <= 1)%nat
  /\ forall m,
       m ∈ res_calls (handler b request response data_len ctx) ->
       mc_service m = HIOMAPD_SERVICE /\ mc_object m = HIOMAPD_OBJECT
       /\ ((mc_iface m = HIOMAPD_IFACE
            /\ (mc_member m = "Reset" \/ mc_member m = "GetInfo"))
           \/ (mc_iface m = HIOMAPD_IFACE_V2
               /\ mc_member m <> "Reset" /\ mc_member m <> "GetInfo")).
Proof.
  intros H. handler_cases H b; cbn [res_calls]; (split; [simpl; lia |]);
    intros m Hm;
    (apply elem_of_nil in Hm || apply list_elem_of_singleton in Hm);
    try done; subst m; simpl; auto 10.
Qed.

(** ** What every dispatch does *)

Lemma hiomap_dispatch_inv b request response ctx r :
  hiomap_dispatch b request response ctx = Some r ->
  ((length request < 2)%nat
   /\ r = mk_result IPMI_CC_REQ_DATA_LEN_INVALID response 0 ctx [])
  \/ (exists c s payload,
        request = c :: s :: payload
        /\ ((c = 0 \/ 10 < c)
            /\ r = mk_result IPMI_CC_PARM_OUT_OF_RANGE response 0 ctx []
            \/ (is_unversioned c = false /\ s = seq ctx)
               /\ r = mk_result IPMI_CC_INVALID_FIELD_REQUEST response 0
                                ctx []
            \/ exists handler,
                 hiomap_commands !! Z.to_nat c = Some (Some handler)
                 /\ sequence_accepted ctx c s
                 /\ r = (let h := handler b payload (drop 2 response)
                                    (Z.of_nat (length payload))
                                    (set_seq s ctx) in
                         if negb (res_cc h =? IPMI_CC_OK)
                         then mk_result (res_cc h)
                                (take 2 response ++ res_response h) 0
                                (res_ctx h) (res_calls h)
                         else mk_result (res_cc h)
                                (<[1%nat := seq (res_ctx h)]>
                                   (<[0%nat := c]>
                                      (take 2 response ++ res_response h)))
                                (res_data_len h + 2) (res_ctx h)
                                (res_calls h)))).
Proof.
  destruct request as [| c [| s payload]].
  - rewrite hiomap_dispatch_short by (simpl; lia).
    intros [= <-]. left. split; [simpl; lia | done].
  - rewrite hiomap_dispatch_short by (simpl; lia).
    intros [= <-]. left. split; [simpl; lia | done].
  - rewrite hiomap_dispatch_envelope. intros Hd. right.
    exists c, s, payload. split; [done |].
    destruct (Z.eqb_spec c 0) as [Hc0 | Hc0];
      [injection Hd as <-; left; auto |].
    destruct (Z.gtb_spec c 10) as [Hc10 | Hc10];
      [injection Hd as <-; left; split; [right; lia | done] |].
    cbn [orb] in Hd. right.
    destruct (is_unversioned c) eqn:Hun; cbn [negb andb] in Hd.
    + right.
      destruct (hiomap_commands !! Z.to_nat c) as [[handler |] |] eqn:Hh;
        [| done | done].
      exists handler. split; [done |]. split; [by left |].
      cbn zeta in *. by destruct (negb _); injection Hd as <-.
    + destruct (Z.eqb_spec (seq ctx) s) as [Hs | Hs].
      * injection Hd as <-. left. by split.
      * right.
        destruct (hiomap_commands !! Z.to_nat c) as [[handler |] |] eqn:Hh;
          [| done | done].
        exists handler. split; [done |]. split; [by right |].
        cbn zeta in *. by destruct (negb _); injection Hd as <-.
Qed.

(** X5. A dispatch that does not return OK leaves the response buffer as it
    was (no header is written), reports length zero, and leaves the event
    bitmask and the lookup table of the session alone. *)
Theorem hiomap_dispatch_failure_untouched b request response ctx r :
  hiomap_dispatch b request response ctx = Some r ->
  res_cc r <> IPMI_CC_OK ->
  res_response r = response
  /\ res_data_len r = 0
  /\ bmc_events (res_ctx r) = bmc_events ctx
  /\ event_lookup (res_ctx r) = event_lookup ctx.
Proof.
  intros Hd Hcc. apply hiomap_dispatch_inv in Hd.
  destruct Hd as [[_ ->] | (c & s & payload & -> & Hd)]; [done |].
  destruct Hd as [[_ ->] | [[_ ->] | (handler & Hh & _ & ->)]];
    [done | done |].
  cbn zeta in *.
  destruct (Z.eqb_spec
              (res_cc (handler b payload (drop 2 response)
                         (Z.of_nat (length payload)) (set_seq s ctx)))
              IPMI_CC_OK) as [Hok | Hne]; cbn [negb] in *; [done |].
  destruct (handlers_failure c handler b payload (drop 2 response)
              (Z.of_nat (length payload)) (set_seq s ctx) Hh Hne)
    as (Hresp & Hctx & _).
  cbn [res_response res_data_len res_ctx]. rewrite Hresp, Hctx.
  by rewrite take_drop.
Qed.

Lemma hiomap_dispatch_failure_untouched_witness :
  exists r,
    hiomap_dispatch (backend_fails ENOSPC) [HIOMAP_C_ERASE; 4; 0; 0; 1; 0]
                    [9; 9; 9; 9; 9; 9; 9; 9]
                    (set_bmc_events 0x42 initial_hiomap) = Some r
    /\ res_response r = [9; 9; 9; 9; 9; 9; 9; 9]
    /\ res_data_len r = 0
    /\ bmc_events (res_ctx r) = 0x42.
Proof.
  eexists. split; [reflexivity |].
  destruct (hiomap_dispatch_failure_untouched (backend_fails ENOSPC)
              [HIOMAP_C_ERASE; 4; 0; 0; 1; 0] [9; 9; 9; 9; 9; 9; 9; 9]
              (set_bmc_events 0x42 initial_hiomap) _ eq_refl)
    as (H1 & H2 & H3 & _); [done |].
  split; [exact H1 | split; [exact H2 | exact H3]].
Defined.

(** X6. On a response buffer of at least eight bytes, the room of the
    longest response, a dispatch writes to the first eight bytes only:
    every byte from the ninth on is the one the buffer held before. *)
Theorem hiomap_dispatch_response_bounds b request response ctx r :
  (8 <= length response)%nat ->
  hiomap_dispatch b request response ctx = Some r ->
  drop 8 (res_response r) = drop 8 response.
Proof.
  intros Hroom Hd. apply hiomap_dispatch_inv in Hd.
  destruct Hd as [[_ ->] | (c & s & payload & -> & Hd)]; [done |].
  destruct Hd as [[_ ->] | [[_ ->] | (handler & Hh & _ & ->)]];
    [done | done |].
  cbn zeta.
  destruct (handlers_response c handler b payload (drop 2 response)
              (Z.of_nat (length payload)) (set_seq s ctx) Hh)
    as (_ & Hdrop & _).
  set (h := handler b payload (drop 2 response) (Z.of_nat (length payload))
              (set_seq s ctx)) in *.
  assert (drop 8 (take 2 response ++ res_response h) = drop 8 response)
    as Hkeep.
  { rewrite drop_app, length_take.
    rewrite (drop_ge (take 2 response)) by (rewrite length_take; lia).
    replace (8 - 2 `min` length response)%nat with 6%nat by lia.
    rewrite Hdrop, drop_drop. done. }
  destruct (negb _); cbn [res_response]; [done |].
  by rewrite !drop_insert_lt by lia.
Qed.

Lemma hiomap_dispatch_response_bounds_witness :
  exists r,
    hiomap_dispatch (backend_replies [0x1234; 0x10; 0x20])
                    [HIOMAP_C_CREATE_READ_WINDOW; 1; 0; 0; 1; 0]
                    [9; 9; 9; 9; 9; 9; 9; 9; 7; 7]
                    initial_hiomap = Some r
    /\ drop 8 (res_response r) = [7; 7].
Proof.
  eexists. split; [reflexivity |].
  apply (hiomap_dispatch_response_bounds
           (backend_replies [0x1234; 0x10; 0x20])
           [HIOMAP_C_CREATE_READ_WINDOW; 1; 0; 0; 1; 0]
           [9; 9; 9; 9; 9; 9; 9; 9; 7; 7] initial_hiomap).
  - simpl. lia.
  - reflexivity.
Defined.

(** X7. No command other than Acknowledge changes the event bitmask: the
    session after such a dispatch is the old one, with at most the
    sequence number replaced by the request's. *)
Theorem hiomap_dispatch_only_ack_writes_events b request response ctx r :
  hiomap_dispatch b request response ctx = Some r ->
  byte_at request 0 <> HIOMAP_C_ACK ->
  res_ctx r = ctx \/ res_ctx r = set_seq (byte_at request 1) ctx.
Proof.
  intros Hd Hc. apply hiomap_dispatch_inv in Hd.
  destruct Hd as [[_ ->] | (c & s & payload & -> & Hd)]; [by left |].
  destruct Hd as [[_ ->] | [[_ ->] | (handler & Hh & _ & ->)]];
    [by left | by left |].
  right. cbn zeta. change (byte_at (c :: s :: payload) 1) with s.
  change (byte_at (c :: s :: payload) 0) with c in Hc.
  destruct (negb _); cbn [res_ctx]; by apply (handlers_session c).
Qed.

Lemma hiomap_dispatch_only_ack_writes_events_witness :
  exists r,
    hiomap_dispatch (backend_replies []) [HIOMAP_C_FLUSH; 3]
                    response_buffer (set_bmc_events 0xC3 initial_hiomap)
      = Some r
    /\ (res_ctx r = set_bmc_events 0xC3 initial_hiomap
        \/ res_ctx r = set_seq 3 (set_bmc_events 0xC3 initial_hiomap)).
Proof.
  eexists. split; [reflexivity |].
  apply (hiomap_dispatch_only_ack_writes_events (backend_replies [])
           [HIOMAP_C_FLUSH; 3] response_buffer
           (set_bmc_events 0xC3 initial_hiomap) _ eq_refl).
  discriminate.
Defined.

(** X8. A dispatch issues at most one backend call; the call goes to the
    Hiomapd service and object, on the base interface for Reset and
    GetInfo and on the V2 interface for every other method. *)
Theorem hiomap_dispatch_backend_calls b request response ctx r :
  hiomap_dispatch b request response ctx = Some r ->
  (length (res_calls r) <= 1)%nat
  /\ forall m,
       m ∈ res_calls r ->
       mc_service m = HIOMAPD_SERVICE /\ mc_object m = HIOMAPD_OBJECT
       /\ ((mc_iface m = HIOMAPD_IFACE
            /\ (mc_member m = "Reset" \/ mc_member m = "GetInfo"))
           \/ (mc_iface m = HIOMAPD_IFACE_V2
               /\ mc_member m <> "Reset" /\ mc_member m <> "GetInfo")).
Proof.
  intros Hd. apply hiomap_dispatch_inv in Hd.
  assert (forall m : method_call, m ∈ @nil method_call -> False) as Hnil
    by (intros m Hm; by apply elem_of_nil in Hm).
  destruct Hd as [[_ ->] | (c & s & payload & -> & Hd)];
    [split; [simpl; lia | intros m Hm; by apply Hnil in Hm] |].
  destruct Hd as [[_ ->] | [[_ ->] | (handler & Hh & _ & ->)]];
    [split; [simpl; lia | intros m Hm; by apply Hnil in Hm] ..|].
  cbn zeta. destruct (negb _); cbn [res_calls]; by apply (handlers_calls c).
Qed.

Lemma hiomap_dispatch_backend_calls_witness :
  exists r,
    hiomap_dispatch (backend_replies [2; 12; 300]) [HIOMAP_C_GET_INFO; 5; 2]
                    response_buffer initial_hiomap = Some r
    /\ (length (res_calls r) <= 1)%nat.
Proof.
  eexists. split; [reflexivity |].
  exact (proj1 (hiomap_dispatch_backend_calls (backend_replies [2; 12; 300])
                  [HIOMAP_C_GET_INFO; 5; 2] response_buffer initial_hiomap
                  _ eq_refl)).
Defined.

(** ** Backend failures *)

Ltac handler_cases_len H b :=
  let Hc := fresh "Hc" in
  pose proof (hiomap_commands_slot _ _ H) as Hc;
  each_command Hc; injection H as <-;
  unfold hiomap_reset, hiomap_get_info, hiomap_get_flash_info,
    hiomap_create_read_window, hiomap_create_write_window,
    hiomap_create_window, hiomap_close_window, hiomap_mark_dirty,
    hiomap_flush, hiomap_ack, hiomap_erase;
  repeat match goal with
         | H : context [payload_min ?k] |- _ =>
             let v := eval vm_compute in (payload_min k) in
             change (payload_min k) with v in H
         | |- context [reply_size ?k] =>
             let v := eval vm_compute in (reply_size k) in
             change (reply_size k) with v
         | |- context [if ?c <? ?d then _ else _] =>
             destruct (Z.ltb_spec c d); [lia |]
         end.

Lemma hiomap_xlate_errno_ok e : hiomap_xlate_errno e = IPMI_CC_OK -> e = 0.
Proof.
  intros Hok. pose proof (errno_walk_total e) as Hwalk.
  apply errno_walk_first in Hwalk
    as (pre & entry & post & Hsplit & _ & Hm & Hcc).
  rewrite Hok in Hcc. destruct pre as [| x pre].
  - injection Hsplit as <- _. simpl in Hm. lia.
  - exfalso. injection Hsplit as _ Htail.
    assert (Forall (fun y => cc y <> IPMI_CC_OK) (pre ++ entry :: post))
      as Hall by (rewrite <- Htail; repeat constructor; done).
    apply Forall_app in Hall as [_ Hall].
    apply Forall_cons in Hall as [Hentry _]. by apply Hentry.
Qed.

(** X2. The only errno translated to OK is 0, and every translation is a
    [uint8_t]. *)
Theorem hiomap_xlate_errno_ok_iff e :
  (hiomap_xlate_errno e = IPMI_CC_OK <-> e = 0)
  /\ 0 <= hiomap_xlate_errno e < 256.
Proof.
  split; [| rewrite <- hiomap_xlate_errno_u8; apply u8_range].
  split; [apply hiomap_xlate_errno_ok | by intros ->].
Qed.

Lemma handlers_error c handler b request response data_len ctx e :
  hiomap_commands !! Z.to_nat c = Some (Some handler) ->
  payload_min c <= data_len ->
  (forall m, b m = SdBusError e) ->
  exists m,
    handler b request response data_len ctx
    = mk_result (hiomap_xlate_errno e) response data_len ctx [m].
Proof.
  intros H Hlen Hb. handler_cases_len H b;
    rewrite Hb, hiomap_xlate_errno_u8; by eexists.
Qed.

(** X3. When the backend fails the call of a well-framed command with a
    nonzero errno, the dispatcher returns the translation of the errno,
    which is not OK, with length zero and the response buffer untouched;
    the session has the request's sequence number stored and is otherwise
    the old one; one call was issued. *)
Theorem hiomap_dispatch_backend_failure b c s payload response ctx e :
  1 <= c <= 10 ->
  sequence_accepted ctx c s ->
  payload_min c <= Z.of_nat (length payload) ->
  (forall m, b m = SdBusError e) ->
  e <> 0 ->
  hiomap_xlate_errno e <> IPMI_CC_OK
  /\ exists m,
       hiomap_dispatch b (c :: s :: payload) response ctx
       = Some (mk_result (hiomap_xlate_errno e) response 0 (set_seq s ctx)
                         [m]).
Proof.
  intros Hc Hacc Hlen Hb He.
  assert (hiomap_xlate_errno e <> IPMI_CC_OK) as Hne
    by (intros H; by apply hiomap_xlate_errno_ok in H).
  split; [done |].
  destruct (hiomap_commands_valid c Hc) as [handler Hh].
  destruct (handlers_error c handler b payload (drop 2 response)
              (Z.of_nat (length payload)) (set_seq s ctx) e Hh Hlen Hb)
    as [m Hm].
  exists m.
  rewrite (hiomap_dispatch_accepted b c s payload response ctx handler)
    by done.
  rewrite Hm. cbn [res_cc res_response res_ctx res_calls res_data_len].
  destruct (Z.eqb_spec (hiomap_xlate_errno e) IPMI_CC_OK); [done |].
  cbn [negb]. by rewrite take_drop.
Qed.

Lemma hiomap_dispatch_backend_failure_witness :
  hiomap_xlate_errno ETIMEDOUT <> IPMI_CC_OK
  /\ exists m,
       hiomap_dispatch (backend_fails ETIMEDOUT)
                       [HIOMAP_C_MARK_DIRTY; 9; 1; 0; 2; 0] response_buffer
                       initial_hiomap
       = Some (mk_result (hiomap_xlate_errno ETIMEDOUT) response_buffer 0
                         (set_seq 9 initial_hiomap) [m]).
Proof.
  apply (hiomap_dispatch_backend_failure (backend_fails ETIMEDOUT)
           HIOMAP_C_MARK_DIRTY 9 [1; 0; 2; 0] response_buffer initial_hiomap
           ETIMEDOUT).
  - unfold HIOMAP_C_MARK_DIRTY. lia.
  - right. simpl. lia.
  - by vm_compute.
  - reflexivity.
  - unfold ETIMEDOUT. lia.
Defined.

(** X4. When the backend fails the call with errno 0, the translation is OK:
    the handler has not set its length, so the dispatcher writes the
    header and reports the length of the request. *)
Theorem hiomap_dispatch_errno_zero b c s payload response ctx :
  1 <= c <= 10 ->
  sequence_accepted ctx c s ->
  payload_min c <= Z.of_nat (length payload) ->
  (forall m, b m = SdBusError 0) ->
  (2 <= length response)%nat ->
  exists m,
    hiomap_dispatch b (c :: s :: payload) response ctx
    = Some (mk_result IPMI_CC_OK (c :: s :: drop 2 response)
              (Z.of_nat (length (c :: s :: payload))) (set_seq s ctx) [m]).
Proof.
  intros Hc Hacc Hlen Hb Hresp.
  destruct (hiomap_commands_valid c Hc) as [handler Hh].
  destruct (handlers_error c handler b payload (drop 2 response)
              (Z.of_nat (length payload)) (set_seq s ctx) 0 Hh Hlen Hb)
    as [m Hm].
  exists m.
  rewrite (hiomap_dispatch_accepted b c s payload response ctx handler)
    by done.
  rewrite Hm. cbn [res_cc res_response res_ctx res_calls res_data_len].
  change (hiomap_xlate_errno 0) with IPMI_CC_OK.
  cbn [Z.eqb IPMI_CC_OK negb seq set_seq].
  destruct response as [| x [| y response]]; simpl in Hresp; [lia | lia |].
  do 2 f_equal. simpl length. lia.
Qed.

Lemma hiomap_dispatch_errno_zero_witness :
  exists m,
    hiomap_dispatch (backend_fails 0) [HIOMAP_C_FLUSH; 9; 1; 1; 1]
                    response_buffer initial_hiomap
    = Some (mk_result IPMI_CC_OK (HIOMAP_C_FLUSH :: 9 :: drop 2 response_buffer)
              5 (set_seq 9 initial_hiomap) [m]).
Proof.
  apply (hiomap_dispatch_errno_zero (backend_fails 0) HIOMAP_C_FLUSH 9
           [1; 1; 1] response_buffer initial_hiomap).
  - unfold HIOMAP_C_FLUSH. lia.
  - right. simpl. lia.
  - by vm_compute.
  - reflexivity.
  - simpl. lia.
Defined.

(** ** Backend replies and the wire layout *)

Lemma handlers_reply c handler b request response data_len ctx body :
  hiomap_commands !! Z.to_nat c = Some (Some handler) ->
  payload_min c <= data_len ->
  (forall m, b m = Reply body) ->
  res_cc (handler b request response data_len ctx) = IPMI_CC_OK
  /\ res_data_len (handler b request response data_len ctx) = reply_size c
  /\ length (res_calls (handler b request response data_len ctx)) = 1%nat.
Proof.
  intros H Hlen Hb. handler_cases_len H b; rewrite Hb; done.
Qed.

(** X9. When the backend answers the call of a well-framed command, the
    dispatcher returns OK after exactly one call, and the response length
    is the header plus the reply size of the command: 4 for Get-Info and
    Get-Flash-Info, 6 for the two window commands, 0 for the others. *)
Theorem hiomap_dispatch_reply_size b c s payload response ctx body :
  1 <= c <= 10 ->
  sequence_accepted ctx c s ->
  payload_min c <= Z.of_nat (length payload) ->
  (forall m, b m = Reply body) ->
  exists r,
    hiomap_dispatch b (c :: s :: payload) response ctx = Some r
    /\ res_cc r = IPMI_CC_OK
    /\ res_data_len r = reply_size c + 2
    /\ length (res_calls r) = 1%nat
    /\ 2 <= res_data_len r <= 8.
Proof.
  intros Hc Hacc Hlen Hb.
  destruct (hiomap_commands_valid c Hc) as [handler Hh].
  destruct (handlers_reply c handler b payload (drop 2 response)
              (Z.of_nat (length payload)) (set_seq s ctx) body Hh Hlen Hb)
    as (Hcc & Hsize & Hcalls).
  pose proof (hiomap_dispatch_accepted b c s payload response ctx handler
                Hh Hacc) as Hd. cbn zeta in Hd.
  rewrite Hcc in Hd. cbn [Z.eqb IPMI_CC_OK negb] in Hd.
  eexists. split; [exact Hd |].
  cbn [res_cc res_data_len res_calls]. rewrite Hsize.
  split; [done |]. split; [done |]. split; [done |].
  each_command Hc; vm_compute; split; discriminate.
Qed.

Lemma hiomap_dispatch_reply_size_witness :
  exists r,
    hiomap_dispatch (backend_replies [0x1234; 0x10; 0x20])
                    [HIOMAP_C_CREATE_WRITE_WINDOW; 1; 0; 0; 1; 0]
                    response_buffer initial_hiomap = Some r
    /\ res_cc r = IPMI_CC_OK
    /\ res_data_len r = 8.
Proof.
  destruct (hiomap_dispatch_reply_size (backend_replies [0x1234; 0x10; 0x20])
              HIOMAP_C_CREATE_WRITE_WINDOW 1 [0; 0; 1; 0] response_buffer
              initial_hiomap [0x1234; 0x10; 0x20])
    as (r & Hd & Hcc & Hlen & _).
  - unfold HIOMAP_C_CREATE_WRITE_WINDOW. lia.
  - right. simpl. lia.
  - by vm_compute.
  - reflexivity.
  - exists r. split; [exact Hd |]. split; [exact Hcc | exact Hlen].
Defined.

(** X10. Get-Info: the backend is asked on the base interface with the first
    payload byte as the only argument; its reply (version, block size
    shift, timeout) comes back as version byte, shift byte and the
    timeout in two bytes, low byte first. *)
Theorem hiomap_dispatch_get_info_layout b s v rest response ctx
    version blockSizeShift timeout more :
  b (append v (new_method_call HIOMAPD_SERVICE HIOMAPD_OBJECT HIOMAPD_IFACE
                               "GetInfo"))
  = Reply (version :: blockSizeShift :: timeout :: more) ->
  (6 <= length response)%nat ->
  exists r,
    hiomap_dispatch b (HIOMAP_C_GET_INFO :: s :: v :: rest) response ctx
    = Some r
    /\ res_cc r = IPMI_CC_OK
    /\ res_data_len r = 6
    /\ res_response r =
         [HIOMAP_C_GET_INFO; s; u8 version; u8 blockSizeShift;
          u16 timeout mod 256; u16 timeout / 256] ++ drop 6 response
    /\ get_le16 (res_response r) 4 = u16 timeout
    /\ res_ctx r = set_seq s ctx
    /\ mc_args <$> res_calls r = [[v]].
Proof.
  intros Hb Hlen.
  pose proof (hiomap_dispatch_accepted b HIOMAP_C_GET_INFO s (v :: rest)
                response ctx hiomap_get_info eq_refl (or_introl eq_refl))
    as Hd.
  cbn zeta in Hd. unfold hiomap_get_info in Hd.
  destruct (Z.ltb_spec (Z.of_nat (length (v :: rest))) 1) as [Hshort |];
    [simpl length in Hshort; lia |].
  change (byte_at (v :: rest) 0) with v in Hd. rewrite Hb in Hd.
  cbn [res_cc res_response res_data_len res_ctx res_calls read_at nth
       IPMI_CC_OK Z.eqb negb seq set_seq] in Hd.
  do 6 (destruct response as [| ? response]; [simpl in Hlen; lia |]).
  eexists. split; [exact Hd |].
  cbn [res_cc res_response res_data_len res_ctx res_calls].
  split; [done |]. split; [done |]. split; [done |].
  split; [| done].
  unfold get_le16, byte_at. cbn.
  pose proof (Z.div_mod (u16 timeout) 256). lia.
Qed.

Lemma hiomap_dispatch_get_info_layout_witness :
  exists r,
    hiomap_dispatch (backend_replies [2; 12; 300]) [HIOMAP_C_GET_INFO; 5; 2]
                    response_buffer initial_hiomap = Some r
    /\ res_response r = [2; 5; 2; 12; 44; 1; 0; 0]
    /\ get_le16 (res_response r) 4 = 300.
Proof.
  destruct (hiomap_dispatch_get_info_layout (backend_replies [2; 12; 300])
              5 2 [] response_buffer initial_hiomap 2 12 300 [] eq_refl)
    as (r & Hd & _ & _ & Hresp & Hget & _).
  - simpl. lia.
  - exists r. split; [exact Hd |]. split; [exact Hresp | exact Hget].
Defined.

(** X11. The window commands: Create-Read-Window (4) and Create-Write-Window
    (6) differ in the method called only.  The backend receives the two
    16-bit payload fields decoded low byte first; its reply (LPC address,
    size, offset) comes back as three 16-bit fields, low byte first. *)
Theorem hiomap_dispatch_create_window_layout b c s p0 p1 p2 p3 rest response
    ctx lpcAddress size offset more :
  c = HIOMAP_C_CREATE_READ_WINDOW \/ c = HIOMAP_C_CREATE_WRITE_WINDOW ->
  seq ctx <> s ->
  b (mk_call HIOMAPD_SERVICE HIOMAPD_OBJECT HIOMAPD_IFACE_V2
       (if c =? HIOMAP_C_CREATE_READ_WINDOW
        then "CreateReadWindow" else "CreateWriteWindow")
       [p0 + 256 * p1; p2 + 256 * p3])
  = Reply (lpcAddress :: size :: offset :: more) ->
  (8 <= length response)%nat ->
  exists r,
    hiomap_dispatch b (c :: s :: p0 :: p1 :: p2 :: p3 :: rest) response ctx
    = Some r
    /\ res_cc r = IPMI_CC_OK
    /\ res_data_len r = 8
    /\ res_response r =
         [c; s;
          u16 lpcAddress mod 256; u16 lpcAddress / 256;
          u16 size mod 256; u16 size / 256;
          u16 offset mod 256; u16 offset / 256] ++ drop 8 response
    /\ get_le16 (res_response r) 2 = u16 lpcAddress
    /\ get_le16 (res_response r) 4 = u16 size
    /\ get_le16 (res_response r) 6 = u16 offset
    /\ res_ctx r = set_seq s ctx.
Proof.
  intros Hc Hseq Hb Hlen.
  assert (hiomap_commands !! Z.to_nat c
          = Some (Some (hiomap_create_window
                          (c =? HIOMAP_C_CREATE_READ_WINDOW)))) as Hh
    by (by destruct Hc as [-> | ->]).
  pose proof (hiomap_dispatch_accepted b c s (p0 :: p1 :: p2 :: p3 :: rest)
                response ctx _ Hh (or_intror Hseq)) as Hd.
  cbn zeta in Hd. unfold hiomap_create_window in Hd.
  destruct (Z.ltb_spec (Z.of_nat (length (p0 :: p1 :: p2 :: p3 :: rest))) 4)
    as [Hshort |]; [simpl length in Hshort; lia |].
  change (get_le16 (p0 :: p1 :: p2 :: p3 :: rest) 0)
    with (p0 + 256 * p1) in Hd.
  change (get_le16 (p0 :: p1 :: p2 :: p3 :: rest) 2)
    with (p2 + 256 * p3) in Hd.
  unfold append, new_method_call in Hd.
  cbn [mc_service mc_object mc_iface mc_member mc_args app] in Hd.
  rewrite Hb in Hd.
  cbn [res_cc res_response res_data_len res_ctx res_calls read_at nth
       IPMI_CC_OK Z.eqb negb seq set_seq] in Hd.
  do 8 (destruct response as [| ? response]; [simpl in Hlen; lia |]).
  eexists. split; [exact Hd |].
  cbn [res_cc res_response res_data_len res_ctx res_calls].
  split; [done |]. split; [done |]. split; [done |].
  unfold get_le16, byte_at. cbn.
  pose proof (Z.div_mod (u16 lpcAddress) 256).
  pose proof (Z.div_mod (u16 size) 256).
  pose proof (Z.div_mod (u16 offset) 256).
  repeat split; lia.
Qed.

Lemma hiomap_dispatch_create_window_layout_witness :
  exists r,
    hiomap_dispatch (backend_replies [0x1234; 0x10; 0x20])
                    [HIOMAP_C_CREATE_READ_WINDOW; 1; 0x34; 0x12; 1; 0]
                    response_buffer initial_hiomap = Some r
    /\ res_response r = [4; 1; 0x34; 0x12; 0x10; 0; 0x20; 0]
    /\ get_le16 (res_response r) 2 = 0x1234.
Proof.
  destruct (hiomap_dispatch_create_window_layout
              (backend_replies [0x1234; 0x10; 0x20])
              HIOMAP_C_CREATE_READ_WINDOW 1 0x34 0x12 1 0 [] response_buffer
              initial_hiomap 0x1234 0x10 0x20 [])
    as (r & Hd & _ & _ & Hresp & Hget & _).
  - by left.
  - discriminate.
  - reflexivity.
  - simpl. lia.
  - exists r. split; [exact Hd |]. split; [exact Hresp | exact Hget].
Defined.

(** X12. Get-Flash-Info takes no payload: whatever follows the header, the
    backend is asked without arguments and its reply (flash size, erase
    size) comes back as two 16-bit fields, low byte first. *)
Theorem hiomap_dispatch_get_flash_info_layout b s payload response ctx
    flashSize eraseSize more :
  seq ctx <> s ->
  b (new_method_call HIOMAPD_SERVICE HIOMAPD_OBJECT HIOMAPD_IFACE_V2
                     "GetFlashInfo")
  = Reply (flashSize :: eraseSize :: more) ->
  (6 <= length response)%nat ->
  exists r,
    hiomap_dispatch b (HIOMAP_C_GET_FLASH_INFO :: s :: payload) response ctx
    = Some r
    /\ res_cc r = IPMI_CC_OK
    /\ res_data_len r = 6
    /\ res_response r =
         [HIOMAP_C_GET_FLASH_INFO; s;
          u16 flashSize mod 256; u16 flashSize / 256;
          u16 eraseSize mod 256; u16 eraseSize / 256] ++ drop 6 response
    /\ get_le16 (res_response r) 2 = u16 flashSize
    /\ get_le16 (res_response r) 4 = u16 eraseSize
    /\ res_ctx r = set_seq s ctx.
Proof.
  intros Hseq Hb Hlen.
  pose proof (hiomap_dispatch_accepted b HIOMAP_C_GET_FLASH_INFO s payload
                response ctx hiomap_get_flash_info eq_refl (or_intror Hseq))
    as Hd.
  cbn zeta in Hd. unfold hiomap_get_flash_info in Hd. rewrite Hb in Hd.
  cbn [res_cc res_response res_data_len res_ctx res_calls read_at nth
       IPMI_CC_OK Z.eqb negb seq set_seq] in Hd.
  do 6 (destruct response as [| ? response]; [simpl in Hlen; lia |]).
  eexists. split; [exact Hd |].
  cbn [res_cc res_response res_data_len res_ctx res_calls].
  split; [done |]. split; [done |]. split; [done |].
  unfold get_le16, byte_at. cbn.
  pose proof (Z.div_mod (u16 flashSize) 256).
  pose proof (Z.div_mod (u16 eraseSize) 256).
  repeat split; lia.
Qed.

Lemma hiomap_dispatch_get_flash_info_layout_witness :
  exists r,
    hiomap_dispatch (backend_replies [0x2000; 0x100])
                    [HIOMAP_C_GET_FLASH_INFO; 1; 0xAA] response_buffer
                    initial_hiomap = Some r
    /\ res_response r = [3; 1; 0; 0x20; 0; 1; 0; 0].
Proof.
  destruct (hiomap_dispatch_get_flash_info_layout
              (backend_replies [0x2000; 0x100]) 1 [0xAA] response_buffer
              initial_hiomap 0x2000 0x100 [])
    as (r & Hd & _ & _ & Hresp & _).
  - discriminate.
  - reflexivity.
  - simpl. lia.
  - exists r. split; [exact Hd | exact Hresp].
Defined.

(** X13. Mark-Dirty (7) and Erase (10): the backend receives offset and size,
    the two 16-bit payload fields decoded low byte first; on its reply the
    response is the two header bytes alone and the session keeps its event
    bitmask. *)
Theorem hiomap_dispatch_range_command b c s p0 p1 p2 p3 rest response ctx
    body :
  c = HIOMAP_C_MARK_DIRTY \/ c = HIOMAP_C_ERASE ->
  seq ctx <> s ->
  b (mk_call HIOMAPD_SERVICE HIOMAPD_OBJECT HIOMAPD_IFACE_V2
       (if c =? HIOMAP_C_MARK_DIRTY then "MarkDirty" else "Erase")
       [p0 + 256 * p1; p2 + 256 * p3])
  = Reply body ->
  (2 <= length response)%nat ->
  hiomap_dispatch b (c :: s :: p0 :: p1 :: p2 :: p3 :: rest) response ctx
  = Some (mk_result IPMI_CC_OK (c :: s :: drop 2 response) 2 (set_seq s ctx)
            [mk_call HIOMAPD_SERVICE HIOMAPD_OBJECT HIOMAPD_IFACE_V2
               (if c =? HIOMAP_C_MARK_DIRTY then "MarkDirty" else "Erase")
               [p0 + 256 * p1; p2 + 256 * p3]]).
Proof.
  intros Hc Hseq Hb Hlen.
  do 2 (destruct response as [| ? response]; [simpl in Hlen; lia |]).
  destruct Hc as [-> | ->].
  - rewrite (hiomap_dispatch_accepted b HIOMAP_C_MARK_DIRTY s
               (p0 :: p1 :: p2 :: p3 :: rest) _ ctx hiomap_mark_dirty eq_refl
               (or_intror Hseq)).
    cbn zeta. unfold hiomap_mark_dirty.
    destruct (Z.ltb_spec (Z.of_nat (length (p0 :: p1 :: p2 :: p3 :: rest))) 4)
      as [Hshort |]; [simpl length in Hshort; lia |].
    change (get_le16 (p0 :: p1 :: p2 :: p3 :: rest) 0) with (p0 + 256 * p1).
    change (get_le16 (p0 :: p1 :: p2 :: p3 :: rest) 2) with (p2 + 256 * p3).
    unfold append, new_method_call.
    cbn [mc_service mc_object mc_iface mc_member mc_args app].
    change (HIOMAP_C_MARK_DIRTY =? HIOMAP_C_MARK_DIRTY) with true in Hb.
    cbv iota in Hb. by rewrite Hb.
  - rewrite (hiomap_dispatch_accepted b HIOMAP_C_ERASE s
               (p0 :: p1 :: p2 :: p3 :: rest) _ ctx hiomap_erase eq_refl
               (or_intror Hseq)).
    cbn zeta. unfold hiomap_erase.
    destruct (Z.ltb_spec (Z.of_nat (length (p0 :: p1 :: p2 :: p3 :: rest))) 4)
      as [Hshort |]; [simpl length in Hshort; lia |].
    change (get_le16 (p0 :: p1 :: p2 :: p3 :: rest) 0) with (p0 + 256 * p1).
    change (get_le16 (p0 :: p1 :: p2 :: p3 :: rest) 2) with (p2 + 256 * p3).
    unfold append, new_method_call.
    cbn [mc_service mc_object mc_iface mc_member mc_args app].
    change (HIOMAP_C_ERASE =? HIOMAP_C_MARK_DIRTY) with false in Hb.
    cbv iota in Hb. by rewrite Hb.
Qed.

Lemma hiomap_dispatch_range_command_witness :
  hiomap_dispatch (backend_replies []) [HIOMAP_C_ERASE; 1; 0x34; 0x12; 2; 0]
                  response_buffer initial_hiomap
  = Some (mk_result IPMI_CC_OK (HIOMAP_C_ERASE :: 1 :: drop 2 response_buffer)
            2 (set_seq 1 initial_hiomap)
            [mk_call HIOMAPD_SERVICE HIOMAPD_OBJECT HIOMAPD_IFACE_V2 "Erase"
               [0x34 + 256 * 0x12; 2 + 256 * 0]]).
Proof.
  apply (hiomap_dispatch_range_command (backend_replies []) HIOMAP_C_ERASE 1
           0x34 0x12 2 0 [] response_buffer initial_hiomap []).
  - by right.
  - discriminate.
  - reflexivity.
  - simpl. lia.
Defined.

(** ** Sequence numbers across commands and notifications *)

Lemma property_update_seq msgData ctx :
  seq (foldl property_update_step ctx msgData) = seq ctx.
Proof.
  revert ctx. induction msgData as [| x msgData IH]; intros ctx; [done |].
  simpl. rewrite IH. apply property_update_step_frame.
Qed.

Lemma session_step_notification_seq ctx ev ctx' :
  is_notification ev = true ->
  session_step ctx ev = Some ctx' ->
  seq ctx' = seq ctx.
Proof.
  destruct ev as [b request response | [iface msgData] | name];
    [done | |]; intros _ Hstep; simpl in Hstep.
  - injection Hstep as <-. apply property_update_seq.
  - destruct (decide _); [| done]. injection Hstep as <-.
    by rewrite hiomap_handle_signal_v2_unfold.
Qed.

Lemma session_run_notifications_seq evs ctx ctx' :
  forallb is_notification evs = true ->
  session_run ctx evs = Some ctx' ->
  seq ctx' = seq ctx.
Proof.
  revert ctx. induction evs as [| ev evs IH]; intros ctx Hall Hrun.
  - by injection Hrun as <-.
  - simpl in Hall, Hrun. apply andb_true_iff in Hall as [Hev Hall].
    destruct (session_step ctx ev) as [ctx1 |] eqn:Hstep; [| done].
    rewrite (IH ctx1 Hall Hrun).
    by apply (session_step_notification_seq ctx ev).
Qed.

(** X14. Replay protection holds across notifications and whatever the first
    command is.  After a dispatch that passed the checks with sequence
    number [s] (also for an unversioned command, and also when its
    handler failed), and after any notifications, a versioned command
    carrying [s] again is rejected with the invalid-field status, no
    backend call and the session unchanged. *)
Theorem hiomap_dispatch_replay_rejected b1 c1 s payload1 response1 ctx r1
    evs ctx' b2 c2 payload2 response2 :
  1 <= c1 <= 10 ->
  sequence_accepted ctx c1 s ->
  hiomap_dispatch b1 (c1 :: s :: payload1) response1 ctx = Some r1 ->
  forallb is_notification evs = true ->
  session_run (res_ctx r1) evs = Some ctx' ->
  versioned c2 ->
  hiomap_dispatch b2 (c2 :: s :: payload2) response2 ctx'
  = Some (mk_result IPMI_CC_INVALID_FIELD_REQUEST response2 0 ctx' []).
Proof.
  intros Hc1 Hacc Hd1 Hevs Hrun [Hc2 Hun].
  destruct (hiomap_commands_valid c1 Hc1) as [handler Hh].
  rewrite (hiomap_dispatch_accepted b1 c1 s payload1 response1 ctx handler)
    in Hd1 by done.
  cbn zeta in Hd1.
  pose proof (handlers_frame c1 handler b1 payload1 (drop 2 response1)
                (Z.of_nat (length payload1)) (set_seq s ctx) Hh) as [Hseq _].
  assert (seq (res_ctx r1) = s) as Hs1
    by (destruct (negb _) in Hd1; injection Hd1 as <-; exact Hseq).
  pose proof (session_run_notifications_seq evs _ _ Hevs Hrun) as Hs.
  rewrite hiomap_dispatch_envelope, valid_command_check by done.
  rewrite Hun, Hs, Hs1, Z.eqb_refl. done.
Qed.

Lemma hiomap_dispatch_replay_rejected_witness :
  exists r1 ctx',
    hiomap_dispatch (backend_fails EBUSY) [HIOMAP_C_GET_INFO; 5; 2]
                    response_buffer initial_hiomap = Some r1
    /\ session_run (res_ctx r1)
         [Signal "WindowReset";
          PropertiesChanged (HIOMAPD_IFACE_V2, [("DaemonReady", true)])]
       = Some ctx'
    /\ hiomap_dispatch (backend_replies []) [HIOMAP_C_FLUSH; 5]
                       response_buffer ctx'
       = Some (mk_result IPMI_CC_INVALID_FIELD_REQUEST response_buffer 0
                         ctx' []).
Proof.
  eexists. eexists. split; [reflexivity |]. split; [reflexivity |].
  eapply (hiomap_dispatch_replay_rejected (backend_fails EBUSY)
            HIOMAP_C_GET_INFO 5 [2] response_buffer initial_hiomap _
            [Signal "WindowReset";
             PropertiesChanged (HIOMAPD_IFACE_V2, [("DaemonReady", true)])]
            _ (backend_replies []) HIOMAP_C_FLUSH [] response_buffer).
  - unfold HIOMAP_C_GET_INFO. lia.
  - by left.
  - reflexivity.
  - reflexivity.
  - reflexivity.
  - split; [unfold HIOMAP_C_FLUSH; lia | reflexivity].
Defined.

(** ** Signals *)

Lemma u8_lor_idem x v : u8 (Z.lor (u8 (Z.lor x v)) v) = u8 (Z.lor x v).
Proof.
  apply Z.bits_inj'. intros i Hi.
  destruct (Z_lt_ge_dec i 8) as [Hlt | Hge].
  - rewrite !u8_testbit, !Z.lor_spec, u8_testbit, Z.lor_spec by lia.
    by destruct (Z.testbit x i), (Z.testbit v i).
  - by rewrite !u8_testbit_high by lia.
Qed.

(** X15. Handling a signal a second time changes nothing: the session and the
    pushed event command are those of the first time. *)
Theorem hiomap_handle_signal_v2_idempotent ctx name :
  hiomap_handle_signal_v2 (nres_ctx (hiomap_handle_signal_v2 ctx name)) name
  = hiomap_handle_signal_v2 ctx name.
Proof.
  rewrite !hiomap_handle_signal_v2_unfold. cbn zeta.
  cbn [nres_ctx event_lookup bmc_events seq].
  unfold map_index. destruct (event_lookup ctx !! name) as [v |] eqn:Hv.
  - cbn [snd]. rewrite Hv. cbn [default snd]. by rewrite u8_lor_idem.
  - cbn [snd]. rewrite lookup_insert_eq. cbn [default snd].
    by rewrite u8_lor_idem.
Qed.

(** X16. A signal whose name the table does not hold enters the table with
    value 0: no bit of the bitmask changes, the other entries are kept,
    and an event command is pushed all the same. *)
Theorem hiomap_handle_signal_v2_unknown ctx name :
  event_lookup ctx !! name = None ->
  event_lookup (nres_ctx (hiomap_handle_signal_v2 ctx name))
  = <[name := 0]> (event_lookup ctx)
  /\ bmc_events (nres_ctx (hiomap_handle_signal_v2 ctx name))
     = u8 (bmc_events ctx)
  /\ (0 <= bmc_events ctx < 256 ->
      bmc_events (nres_ctx (hiomap_handle_signal_v2 ctx name))
      = bmc_events ctx)
  /\ (forall other, other <> name ->
        event_lookup (nres_ctx (hiomap_handle_signal_v2 ctx name)) !! other
        = event_lookup ctx !! other)
  /\ nres_sent (hiomap_handle_signal_v2 ctx name)
     = [(IPMI_CMD_HIOMAP_EVENT, u8 (bmc_events ctx))].
Proof.
  intros Hnone. rewrite hiomap_handle_signal_v2_unfold. cbn zeta.
  cbn [nres_ctx nres_sent event_lookup bmc_events].
  unfold map_index. rewrite Hnone. cbn [default snd]. rewrite Z.lor_0_r.
  split; [done |]. split; [done |]. split; [apply u8_id |].
  split; [| done]. intros other Hne. by rewrite lookup_insert_ne.
Qed.

Lemma hiomap_handle_signal_v2_unknown_witness :
  event_lookup (nres_ctx (hiomap_handle_signal_v2 initial_hiomap "Other"))
  = <["Other" := 0]> initial_event_lookup
  /\ bmc_events (nres_ctx (hiomap_handle_signal_v2 initial_hiomap "Other"))
     = 0.
Proof.
  destruct (hiomap_handle_signal_v2_unknown initial_hiomap "Other" eq_refl)
    as (H1 & H2 & _).
  split; [exact H1 | exact H2].
Defined.

(** X17. A signal followed by an acknowledge: after the signal for a name with
    table value [v] and a successful acknowledge of mask [m], a bit of the
    bitmask is set exactly when it was set before the signal or is in
    [v], and is not in [m].  Acknowledging [v] itself clears the bits of
    the signal, also those that were set before it. *)
Theorem hiomap_signal_then_ack ctx name v b s m rest response body :
  event_lookup ctx !! name = Some v ->
  b (ack_call m) = Reply body ->
  exists r,
    hiomap_dispatch b (HIOMAP_C_ACK :: s :: m :: rest) response
                    (nres_ctx (hiomap_handle_signal_v2 ctx name)) = Some r
    /\ res_cc r = IPMI_CC_OK
    /\ (forall i, 0 <= i < 8 ->
          Z.testbit (bmc_events (res_ctx r)) i
          = (Z.testbit (bmc_events ctx) i || Z.testbit v i)
            && negb (Z.testbit m i))
    /\ (m = v -> forall i, 0 <= i < 8 -> Z.testbit v i = true ->
          Z.testbit (bmc_events (res_ctx r)) i = false).
Proof.
  intros Hv Hb.
  pose proof (hiomap_dispatch_accepted b HIOMAP_C_ACK s (m :: rest) response
                (nres_ctx (hiomap_handle_signal_v2 ctx name)) hiomap_ack
                hiomap_ack_slot (or_introl eq_refl)) as Hd.
  cbn zeta in Hd.
  assert (1 <= Z.of_nat (length (m :: rest))) as Hlen by (simpl length; lia).
  rewrite (hiomap_ack_reply b m rest _ _ _ body Hlen Hb) in Hd.
  cbn [res_cc res_response res_data_len res_ctx res_calls IPMI_CC_OK Z.eqb
       negb] in Hd.
  eexists. split; [exact Hd |].
  cbn [res_cc res_ctx bmc_events set_bmc_events set_seq].
  rewrite hiomap_handle_signal_v2_unfold. cbn zeta.
  cbn [nres_ctx bmc_events]. rewrite Hv. cbn [default].
  assert (forall i, 0 <= i < 8 ->
            Z.testbit (u8 (Z.land (u8 (Z.lor (bmc_events ctx) v))
                                  (Z.lnot m))) i
            = (Z.testbit (bmc_events ctx) i || Z.testbit v i)
              && negb (Z.testbit m i)) as Hbits.
  { intros i Hi. rewrite ack_bits by done.
    by rewrite u8_testbit, Z.lor_spec by done. }
  split; [done |]. split; [exact Hbits |].
  intros -> i Hi Hvi. rewrite Hbits by done. rewrite Hvi.
  apply andb_false_r.
Qed.

Lemma hiomap_signal_then_ack_witness :
  exists r,
    hiomap_dispatch (backend_replies []) [HIOMAP_C_ACK; 0; 2] response_buffer
                    (nres_ctx (hiomap_handle_signal_v2 initial_hiomap
                                 "WindowReset")) = Some r
    /\ res_cc r = IPMI_CC_OK
    /\ Z.testbit (bmc_events (res_ctx r)) 1 = false.
Proof.
  destruct (hiomap_signal_then_ack initial_hiomap "WindowReset"
              BMC_EVENT_WINDOW_RESET (backend_replies []) 0 2 []
              response_buffer [] eq_refl eq_refl)
    as (r & Hd & Hcc & _ & Hclear).
  exists r. split; [exact Hd |]. split; [exact Hcc |].
  apply (Hclear eq_refl 1); [lia | reflexivity].
Defined.

(** ** Property notifications *)

Lemma property_update_absent msgData ctx :
  Forall (fun x : string * bool => event_lookup ctx !! x.1 = None) msgData ->
  foldl property_update_step ctx msgData = ctx.
Proof.
  induction 1 as [| x msgData Hx _ IH]; [done |].
  simpl. by rewrite property_update_step_absent.
Qed.

(** X18. A property notification that delivers no name of the table (an empty
    map among them) leaves the session as it is and still pushes one
    event command, carrying the unchanged bitmask. *)
Theorem hiomap_handle_property_update_unknown ctx iface msgData :
  Forall (fun x : string * bool => event_lookup ctx !! x.1 = None) msgData ->
  hiomap_handle_property_update ctx (iface, msgData)
  = mk_notify 0 ctx [(IPMI_CMD_HIOMAP_EVENT, bmc_events ctx)].
Proof.
  intros H. unfold hiomap_handle_property_update.
  by rewrite property_update_absent.
Qed.

Lemma hiomap_handle_property_update_unknown_witness :
  hiomap_handle_property_update (set_bmc_events 0x42 initial_hiomap)
    (HIOMAPD_IFACE_V2, [("Unknown", true); ("Other", false)])
  = mk_notify 0 (set_bmc_events 0x42 initial_hiomap)
              [(IPMI_CMD_HIOMAP_EVENT, 0x42)].
Proof.
  apply (hiomap_handle_property_update_unknown
           (set_bmc_events 0x42 initial_hiomap) HIOMAPD_IFACE_V2
           [("Unknown", true); ("Other", false)]).
  repeat constructor.
Defined.

Lemma property_update_hit_range msgData ctx :
  Exists (fun x : string * bool => is_Some (event_lookup ctx !! x.1)) msgData ->
  0 <= bmc_events (foldl property_update_step ctx msgData) < 256.
Proof.
  revert ctx. induction msgData as [| x msgData IH]; intros ctx Hex;
    [by apply Exists_nil in Hex |].
  simpl. destruct (event_lookup ctx !! x.1) as [v |] eqn:Hv.
  - apply property_update_events_range. unfold property_update_step.
    rewrite Hv. destruct x.2; apply u8_range.
  - rewrite property_update_step_absent by done.
    apply IH. apply Exists_cons in Hex as [[? Hx] | Hex]; [congruence | done].
Qed.

Lemma property_update_bit_owner (table : gmap string Z)
    (msgData : list (string * bool)) i :
  (exists name value v,
     (name, value) ∈ msgData /\ table !! name = Some v
     /\ Z.testbit v i = true)
  \/ (forall name value v,
        (name, value) ∈ msgData -> table !! name = Some v ->
        Z.testbit v i = false).
Proof.
  induction msgData as [| [n0 b0] msgData IH].
  - right. intros ??? Hin. by apply elem_of_nil in Hin.
  - destruct IH as [(name & value & v & Hin & Hv & Hbit) | Hnone].
    { left. exists name, value, v. split; [by apply list_elem_of_further |].
      done. }
    destruct (table !! n0) as [v0 |] eqn:Hv0.
    + destruct (Z.testbit v0 i) eqn:Hbit0.
      * left. exists n0, b0, v0. split; [apply list_elem_of_here | done].
      * right. intros name value v Hin Hv.
        apply elem_of_cons in Hin as [[= -> ->] | Hin]; [congruence |].
        by apply (Hnone name value v).
    + right. intros name value v Hin Hv.
      apply elem_of_cons in Hin as [[= -> ->] | Hin]; [congruence |].
      by apply (Hnone name value v).
Qed.

Lemma byte_bits_high x i : 0 <= x < 256 -> 8 <= i -> Z.testbit x i = false.
Proof. intros Hx Hi. rewrite <- (u8_id x Hx). by apply u8_testbit_high. Qed.

(** X19. The outcome of a property notification does not depend on the order
    in which the delivered map is walked: over a table with disjoint
    masks, two listings of the same entries, each name once, give the same
    session and the same event command. *)
Theorem hiomap_handle_property_update_order ctx iface msgData msgData' :
  masks_disjoint (event_lookup ctx) ->
  NoDup msgData.*1 ->
  msgData ≡ₚ msgData' ->
  hiomap_handle_property_update ctx (iface, msgData)
  = hiomap_handle_property_update ctx (iface, msgData').
Proof.
  intros Hdisj Hnodup Hperm.
  assert (NoDup msgData'.*1) as Hnodup' by (by rewrite <- Hperm).
  assert (foldl property_update_step ctx msgData
          = foldl property_update_step ctx msgData') as Heq;
    [| unfold hiomap_handle_property_update; by rewrite Heq].
  destruct (decide (Forall (fun x : string * bool =>
                              event_lookup ctx !! x.1 = None) msgData))
    as [Hall | Hhit].
  { rewrite !property_update_absent; [done | by rewrite <- Hperm | done]. }
  apply not_Forall_Exists in Hhit; [| apply _].
  assert (Exists (fun x : string * bool =>
                    is_Some (event_lookup ctx !! x.1)) msgData) as Hex.
  { eapply Exists_impl; [exact Hhit |]. intros x Hx. simpl in Hx.
    by destruct (event_lookup ctx !! x.1); [eexists |]. }
  assert (Exists (fun x : string * bool =>
                    is_Some (event_lookup ctx !! x.1)) msgData') as Hex'.
  { apply Exists_exists in Hex as (x & Hin & Hx). apply Exists_exists.
    exists x. split; [by rewrite <- Hperm | done]. }
  pose proof (property_update_hit_range msgData ctx Hex) as Hr.
  pose proof (property_update_hit_range msgData' ctx Hex') as Hr'.
  destruct (property_update_fold (event_lookup ctx) Hdisj msgData ctx
              eq_refl Hnodup) as (Hl & Hs & Hset & Hkeep).
  destruct (property_update_fold (event_lookup ctx) Hdisj msgData' ctx
              eq_refl Hnodup') as (Hl' & Hs' & Hset' & Hkeep').
  rewrite (hiomap_same_but_events ctx (foldl property_update_step ctx msgData))
    by done.
  rewrite (hiomap_same_but_events ctx
             (foldl property_update_step ctx msgData')) by done.
  f_equal. apply Z.bits_inj'. intros i Hi.
  destruct (Z_lt_ge_dec i 8) as [Hlt | Hge];
    [| by rewrite !byte_bits_high by (done || lia)].
  destruct (property_update_bit_owner (event_lookup ctx) msgData i)
    as [(name & value & v & Hin & Hv & Hbit) | Hnone].
  - rewrite (Hset name value v i) by (done || lia).
    rewrite (Hset' name value v i); [done | by rewrite <- Hperm | done | lia
                                     | done].
  - rewrite Hkeep by (done || lia). rewrite Hkeep'; [done | lia |].
    intros name value v Hin. apply (Hnone name value v). by rewrite Hperm.
Qed.

Lemma hiomap_handle_property_update_order_witness :
  hiomap_handle_property_update initial_hiomap
    (HIOMAPD_IFACE_V2, [("FlashControlLost", true); ("DaemonReady", true)])
  = hiomap_handle_property_update initial_hiomap
      (HIOMAPD_IFACE_V2, [("DaemonReady", true); ("FlashControlLost", true)]).
Proof.
  apply (hiomap_handle_property_update_order initial_hiomap HIOMAPD_IFACE_V2
           [("FlashControlLost", true); ("DaemonReady", true)]
           [("DaemonReady", true); ("FlashControlLost", true)]).
  - apply initial_event_lookup_disjoint.
  - by apply (bool_decide_unpack _).
  - apply perm_swap.
Defined.

(** ** Acknowledge twice *)

Lemma u8_land_lnot_compose x m1 m2 :
  u8 (Z.land (u8 (Z.land x (Z.lnot m1))) (Z.lnot m2))
  = u8 (Z.land x (Z.lnot (Z.lor m1 m2))).
Proof.
  apply Z.bits_inj'. intros i Hi.
  destruct (Z_lt_ge_dec i 8) as [Hlt | Hge].
  - rewrite !ack_bits by lia. rewrite Z.lor_spec.
    by destruct (Z.testbit x i), (Z.testbit m1 i), (Z.testbit m2 i).
  - by rewrite !u8_testbit_high by lia.
Qed.

(** X20. Two successful acknowledges in a row, of masks [m1] and [m2], leave
    the session that one acknowledge of [m1 OR m2] leaves. *)
Theorem hiomap_ack_compose b m1 m2 rest1 rest2 rest response data_len ctx
    body :
  1 <= data_len ->
  (forall m, b m = Reply body) ->
  res_ctx (hiomap_ack b (m2 :: rest2) response data_len
             (res_ctx (hiomap_ack b (m1 :: rest1) response data_len ctx)))
  = res_ctx (hiomap_ack b (Z.lor m1 m2 :: rest) response data_len ctx).
Proof.
  intros Hlen Hb.
  rewrite !(hiomap_ack_reply b _ _ response data_len _ body) by done.
  cbn [res_ctx]. unfold set_bmc_events. cbn [bmc_events event_lookup seq].
  by rewrite u8_land_lnot_compose.
Qed.

Lemma hiomap_ack_compose_witness :
  res_ctx (hiomap_ack (backend_replies []) [0x40] response_buffer 1
             (res_ctx (hiomap_ack (backend_replies []) [0x02] response_buffer
                         1 (set_bmc_events 0xC3 initial_hiomap))))
  = res_ctx (hiomap_ack (backend_replies []) [Z.lor 0x02 0x40]
               response_buffer 1 (set_bmc_events 0xC3 initial_hiomap)).
Proof.
  apply (hiomap_ack_compose (backend_replies []) 0x02 0x40 [] [] []
           response_buffer 1 (set_bmc_events 0xC3 initial_hiomap) []).
  - lia.
  - reflexivity.
Defined.

(** ** The session from start-up on *)

Lemma session_run_reachable evs ctx ctx' :
  reachable ctx -> session_run ctx evs = Some ctx' -> reachable ctx'.
Proof.
  revert ctx. induction evs as [| ev evs IH]; intros ctx Hreach Hrun.
  - by injection Hrun as <-.
  - simpl in Hrun.
    destruct (session_step ctx ev) as [ctx1 |] eqn:Hstep; [| done].
    apply (IH ctx1); [| done]. by apply (reachable_step ctx ev).
Qed.

(** X21. Whatever commands, property notifications and registered signals
    arrive after start-up, the session holds the event table of the
    registration, whose masks share no bit, and an event bitmask that
    fits a [uint8_t]. *)
Theorem session_run_invariant evs ctx :
  session_run initial_hiomap evs = Some ctx ->
  event_lookup ctx = initial_event_lookup
  /\ masks_disjoint (event_lookup ctx)
  /\ 0 <= bmc_events ctx < 256.
Proof.
  intros Hrun.
  destruct (reachable_invariant ctx
              (session_run_reachable evs _ _ reachable_initial Hrun))
    as [Hl Hr].
  split; [done |]. split; [| done].
  rewrite Hl. apply initial_event_lookup_disjoint.
Qed.

Lemma session_run_invariant_witness :
  exists ctx,
    session_run initial_hiomap
      [Signal "ProtocolReset";
       Command (backend_replies []) [HIOMAP_C_ACK; 1; 1] response_buffer;
       PropertiesChanged (HIOMAPD_IFACE_V2, [("DaemonReady", true)])]
    = Some ctx
    /\ event_lookup ctx = initial_event_lookup
    /\ 0 <= bmc_events ctx < 256.
Proof.
  eexists. split; [reflexivity |].
  destruct (session_run_invariant
              [Signal "ProtocolReset";
               Command (backend_replies []) [HIOMAP_C_ACK; 1; 1]
                       response_buffer;
               PropertiesChanged (HIOMAPD_IFACE_V2, [("DaemonReady", true)])]
              _ eq_refl) as (H1 & _ & H2).
  split; [exact H1 | exact H2].
Defined.

(** X22. On every request made of bytes the dispatcher returns: it never calls
    through the null slot 0 of the command table nor through a slot past
    its end. *)
Theorem hiomap_dispatch_never_null b request response ctx :
  bytes request ->
  exists r, hiomap_dispatch b request response ctx = Some r.
Proof. intros Hb. by apply hiomap_dispatch_defined. Qed.

Lemma hiomap_dispatch_never_null_witness :
  exists r,
    hiomap_dispatch (backend_replies []) [0; 255; 7] response_buffer
                    initial_hiomap = Some r.
Proof.
  apply (hiomap_dispatch_never_null (backend_replies []) [0; 255; 7]
           response_buffer initial_hiomap).
  repeat constructor; lia.
Defined.

(** ** Response framing *)

Lemma handlers_data_len c handler b request response data_len ctx :
  hiomap_commands !! Z.to_nat c = Some (Some handler) ->
  0 <= data_len ->
  0 <= res_data_len (handler b request response data_len ctx).
Proof.
  intros H Hlen. handler_cases H b; cbn [res_data_len]; lia.
Qed.

(** C6. When the handler of an accepted envelope returns OK and the
    response buffer has room for the header and the length the handler
    reports, the dispatcher returns OK; the response holds the command id,
    then the session's sequence number (the one just stored, the
    request's), then what the handler left in its part of the buffer; the
    response length is the handler's length plus two, and the response of
    that length, header then handler payload, lies inside the buffer. *)
Theorem hiomap_dispatch_success_framing b c s payload response ctx :
  1 <= c <= 10 ->
  sequence_accepted ctx c s ->
  exists handler,
    hiomap_commands !! Z.to_nat c = Some (Some handler)
    /\ (res_cc (handler b payload (drop 2 response)
                  (Z.of_nat (length payload)) (set_seq s ctx)) = IPMI_CC_OK ->
        2 + res_data_len (handler b payload (drop 2 response)
                            (Z.of_nat (length payload)) (set_seq s ctx))
        <= Z.of_nat (length response) ->
        exists r,
          hiomap_dispatch b (c :: s :: payload) response ctx = Some r
          /\ res_cc r = IPMI_CC_OK
          /\ res_response r =
               c :: seq (res_ctx r)
                 :: res_response (handler b payload (drop 2 response)
                                    (Z.of_nat (length payload))
                                    (set_seq s ctx))
          /\ seq (res_ctx r) = s
          /\ res_data_len r =
               res_data_len (handler b payload (drop 2 response)
                               (Z.of_nat (length payload)) (set_seq s ctx))
               + 2
          /\ take (Z.to_nat (res_data_len r)) (res_response r) =
               c :: s
                 :: take (Z.to_nat
                            (res_data_len
                               (handler b payload (drop 2 response)
                                  (Z.of_nat (length payload))
                                  (set_seq s ctx))))
                      (res_response (handler b payload (drop 2 response)
                                       (Z.of_nat (length payload))
                                       (set_seq s ctx)))
          /\ length (take (Z.to_nat (res_data_len r)) (res_response r))
             = Z.to_nat (res_data_len r)).
Proof.
  intros Hc Hacc. destruct (hiomap_commands_valid c Hc) as [handler Hh].
  exists handler. split; [done |].
  pose proof (hiomap_dispatch_accepted b c s payload response ctx handler
                Hh Hacc) as Hd. cbn zeta in Hd.
  pose proof (handlers_frame c handler b payload (drop 2 response)
                (Z.of_nat (length payload)) (set_seq s ctx) Hh) as [Hseq _].
  destruct (handlers_response c handler b payload (drop 2 response)
              (Z.of_nat (length payload)) (set_seq s ctx) Hh)
    as (Hlen & _ & _).
  pose proof (handlers_data_len c handler b payload (drop 2 response)
                (Z.of_nat (length payload)) (set_seq s ctx) Hh
                (Nat2Z.is_nonneg _)) as Hnn.
  set (h := handler b payload (drop 2 response) (Z.of_nat (length payload))
              (set_seq s ctx)) in *.
  intros Hok Hroom. rewrite Hok in Hd. cbn [Z.eqb IPMI_CC_OK negb] in Hd.
  destruct response as [| x [| y response]];
    [simpl length in Hroom; lia | simpl length in Hroom; lia |].
  rewrite length_drop in Hlen. simpl length in Hlen, Hroom.
  assert (<[1%nat:=seq (res_ctx h)]>
            (<[0%nat:=c]> (take 2 (x :: y :: response) ++ res_response h))
          = c :: seq (res_ctx h) :: res_response h) as Hframe
    by reflexivity.
  rewrite Hframe in Hd.
  eexists. split; [exact Hd |].
  cbn [res_cc res_response res_data_len res_ctx].
  split; [done |]. split; [done |]. split; [exact Hseq |]. split; [done |].
  replace (Z.to_nat (res_data_len h + 2))
    with (S (S (Z.to_nat (res_data_len h)))) by lia.
  cbn [take]. rewrite Hseq. cbn [seq set_seq]. split; [done |].
  cbn [length]. rewrite length_take. lia.
Qed.

Lemma hiomap_dispatch_success_framing_witness :
  exists r,
    hiomap_dispatch (backend_replies [2; 12; 300]) [HIOMAP_C_GET_INFO; 5; 2]
                    response_buffer initial_hiomap = Some r
    /\ res_cc r = IPMI_CC_OK
    /\ res_response r = [2; 5; 2; 12; 44; 1; 0; 0]
    /\ res_data_len r = 6
    /\ take (Z.to_nat (res_data_len r)) (res_response r)
       = [2; 5; 2; 12; 44; 1].
Proof.
  destruct (hiomap_dispatch_success_framing (backend_replies [2; 12; 300])
              HIOMAP_C_GET_INFO 5 [2] response_buffer initial_hiomap)
    as (handler & Hh & Hok).
  - unfold HIOMAP_C_GET_INFO. lia.
  - left. reflexivity.
  - injection Hh as <-.
    destruct (Hok eq_refl) as (r & Hd & Hcc & Hresp & Hseq & Hlen & Htake & _);
      [by vm_compute |].
    exists r. split; [exact Hd |]. split; [exact Hcc |].
    rewrite Htake, Hresp, Hseq, Hlen. repeat split; reflexivity.
Defined.
